(** * Kiwi: the replicated write path

A shallow embedding of the Go packages [storage] and [replication] of
the kiwi key-value store: the LevelDB adapter, the replication
participant ([Server]), the replication coordinator ([Client],
[Manager]) and the replicated store facade ([ReplicatedStore]).

Conventions.
- A Go method [M] with receiver [T] is the definition [T.M]; the receiver is passed
  and returned explicitly where the method mutates it.
- A Go [error] result is an [option error] ([None] is [nil]); a
  [(value, error)] result is a [result].
- [uint64] fields are [Z] with the wrap-around modulo [2^64] written
  where the code increments them.
- [log.Printf] calls are not part of the model. *)

From Stdlib Require Import ZArith Lia Ascii.
From stdpp Require Import base option list strings gmap fin_maps pretty sorting.

Open Scope string_scope.
Open Scope list_scope.
Open Scope Z_scope.

(** ** Go values shared by all packages *)

(** [[]byte]. *)
Definition bytes : Type := list Byte.byte.

(** Go errors.  The two sentinels of [storage/store.go], the sentinel
    [leveldb.ErrNotFound] of the engine, [errors.New]/[fmt.Errorf] without
    [%w] (a fresh error carrying only a message) and [fmt.Errorf] with a
    trailing [": %w"] (a prefix wrapped around a cause). *)
Inductive error : Type :=
| ErrKeyNotFound
| ErrInvalidKey
| leveldb_ErrNotFound
| errors_New (msg : string)
| Errorf_w (prefix : string) (cause : error).

(** [err.Error()]. *)
Fixpoint Error (e : error) : string :=
  match e with
  | ErrKeyNotFound => "key not found"
  | ErrInvalidKey => "invalid key"
  | leveldb_ErrNotFound => "leveldb: not found"
  | errors_New msg => msg
  | Errorf_w prefix cause => prefix +:+ ": " +:+ Error cause
  end.

#[global] Instance error_eq_dec : EqDecision error.
Proof. solve_decision. Defined.

(** A Go pair [(value, err)] of which exactly one side is meaningful. *)
Inductive result (A : Type) : Type :=
| Ok (a : A)
| Err (e : error).
Arguments Ok {A} a.
Arguments Err {A} e.

(** ** External collaborators *)

(** The embedded engine ([*leveldb.DB]) is a black box: the three calls the
    adapter makes, with no law assumed about them.  Keys are the strings
    whose bytes the adapter passes. *)
Class Engine (DB : Type) : Type := {
  db_Get : DB → string → result bytes;
  db_Put : DB → string → bytes → DB * option error;
  db_Delete : DB → string → DB * option error
}.

(** [encoding/json] over the values the HTTP layer hands in
    ([interface{}]). *)
Class Json (V : Type) : Type := {
  json_Marshal : V → result bytes;
  json_Unmarshal : bytes → result V
}.

(** [db.NewIterator(nil, nil)] run to its end: every entry the iterator
    yields, and [iter.Error()] afterwards.  No law is assumed. *)
Class Iterable (DB : Type) : Type := {
  db_Iterate : DB → list (string * bytes) * option error
}.

(** [db.NewIterator(util.BytesPrefix(prefix), nil)]: the iteration
    restricted to the keys that start with [prefix]. *)
Definition db_IteratePrefix {DB : Type} `{!Iterable DB} (d : DB) (prefix : string)
  : list (string * bytes) * option error :=
  let '(entries, err) := db_Iterate d in
  (filter (λ kv, String.prefix prefix kv.1 = true) entries, err).

(** [s[n:]] for [n] at most [len(s)]. *)
Fixpoint slice_from (n : nat) (s : string) : string :=
  match n, s with
  | O, _ => s
  | S n', String _ s' => slice_from n' s'
  | S _, EmptyString => EmptyString
  end.

(** The split of a string at its first colon: what stands before it and
    what stands after it; [None] when there is no colon. *)
Fixpoint cut_colon (s : string) : option (string * string) :=
  match s with
  | EmptyString => None
  | String a s' =>
      if Ascii.eqb a ":"%char then Some (EmptyString, s')
      else match cut_colon s' with
           | Some (before, after) => Some (String a before, after)
           | None => None
           end
  end.

(** [strings.Split(s, ",")]: the pieces between the commas, one more than
    there are commas. *)
Fixpoint Split_comma (s : string) : list string :=
  match s with
  | EmptyString => [EmptyString]
  | String a s' =>
      if Ascii.eqb a ","%char then EmptyString :: Split_comma s'
      else match Split_comma s' with
           | piece :: pieces => String a piece :: pieces
           | [] => [String a EmptyString]
           end
  end.

(** [strings.Join(pieces, ",")]. *)
Fixpoint Join_comma (pieces : list string) : string :=
  match pieces with
  | [] => EmptyString
  | [piece] => piece
  | piece :: rest => piece +:+ "," +:+ Join_comma rest
  end.

(** What callers may expect of an engine whose calls succeed: a lookup
    sees the last successful write or delete of its key, and a clean
    iteration lists each stored entry once. *)
Class LawfulEngine (DB : Type) `{!Engine DB} `{!Iterable DB} : Prop := {
  engine_get_put (d d' : DB) (k k' : string) (v : bytes) :
    db_Put d k v = (d', None) →
    db_Get d' k' = if decide (k' = k) then Ok v else db_Get d k';
  engine_get_delete (d d' : DB) (k k' : string) :
    db_Delete d k = (d', None) →
    db_Get d' k' = if decide (k' = k) then Err leveldb_ErrNotFound else db_Get d k';
  engine_iterate (d : DB) (entries : list (string * bytes)) :
    db_Iterate d = (entries, None) →
    NoDup entries.*1 ∧ ∀ k v, (k, v) ∈ entries ↔ db_Get d k = Ok v
}.

(** An engine kept in memory: a finite map, and a fault that, when set,
    makes every call fail with that message and change nothing. *)
Record MemDB : Type := mkMemDB {
  contents : gmap string bytes;
  fault : option string
}.

Definition MemDB_Get (d : MemDB) (k : string) : result bytes :=
  match fault d with
  | Some msg => Err (errors_New msg)
  | None =>
      match contents d !! k with
      | Some v => Ok v
      | None => Err leveldb_ErrNotFound
      end
  end.

Definition MemDB_Put (d : MemDB) (k : string) (v : bytes) : MemDB * option error :=
  match fault d with
  | Some msg => (d, Some (errors_New msg))
  | None => (mkMemDB (<[k:=v]> (contents d)) None, None)
  end.

Definition MemDB_Delete (d : MemDB) (k : string) : MemDB * option error :=
  match fault d with
  | Some msg => (d, Some (errors_New msg))
  | None => (mkMemDB (delete k (contents d)) None, None)
  end.

#[global] Instance MemDB_Engine : Engine MemDB :=
  {| db_Get := MemDB_Get; db_Put := MemDB_Put; db_Delete := MemDB_Delete |}.

(** The callers of the iterator do not depend on the order of the
    entries. *)
Definition MemDB_Iterate (d : MemDB) : list (string * bytes) * option error :=
  match fault d with
  | Some msg => ([], Some (errors_New msg))
  | None => (map_to_list (contents d), None)
  end.

#[global] Instance MemDB_Iterable : Iterable MemDB :=
  {| db_Iterate := MemDB_Iterate |}.

(** Values that already are their own JSON text. *)
#[global] Instance Raw_Json : Json bytes :=
  {| json_Marshal := Ok; json_Unmarshal := Ok |}.

(** ** Package [config] *)

Module Config.

(** [type Role string] and its two constants. *)
Definition RoleMaster : string := "master".
Definition RoleSlave : string := "slave".

(** The replication settings of [Config]; the HTTP and build fields play
    no part in the write path. *)
Record t : Type := mk {
  NodeID : string;
  Role : string;
  GRPCPort : string;
  MasterAddr : string;
  SlaveAddrs : list string
}.

Definition IsMaster (c : t) : bool := bool_decide (Role c = RoleMaster).
Definition IsSlave (c : t) : bool := bool_decide (Role c = RoleSlave).

(** [getEnv]; [environ] is [os.Getenv], which answers the empty string for
    a variable that is not set. *)
Definition getEnv (environ : string → string) (key defaultValue : string)
  : string :=
  if bool_decide (environ key ≠ "") then environ key else defaultValue.

(** [Load], as far as the replication settings go. *)
Definition Load (environ : string → string) : t :=
  let role := getEnv environ "ROLE" "master" in
  let role :=
    if bool_decide (role ≠ RoleMaster) && bool_decide (role ≠ RoleSlave)
    then RoleMaster else role in
  let addrs := getEnv environ "SLAVE_ADDRS" "" in
  let slaveAddrs := if bool_decide (addrs ≠ "") then Split_comma addrs else [] in
  mk (getEnv environ "NODE_ID" "node-1") role
     (getEnv environ "GRPC_PORT" "50051")
     (getEnv environ "MASTER_ADDR" "")
     slaveAddrs.

End Config.

(** ** Package [storage]: the LevelDB adapter *)

Module LevelDBStore.
Section WithEngine.
Context {DB V : Type} `{!Engine DB} `{!Json V}.

Record t : Type := mk { db : DB }.

(** [fmt.Sprintf("%s:%s", collection, key)]. *)
Definition makeKey (collection key : string) : string :=
  collection +:+ ":" +:+ key.

Definition PutDirect (s : t) (collection key : string) (value : bytes)
  : t * option error :=
  if bool_decide (key = "") then (s, Some ErrInvalidKey)
  else
    let dbKey := makeKey collection key in
    let '(d, err) := db_Put (db s) dbKey value in
    (mk d, err).

Definition DeleteDirect (s : t) (collection key : string) : t * option error :=
  if bool_decide (key = "") then (s, Some ErrInvalidKey)
  else
    let dbKey := makeKey collection key in
    let '(d, err) := db_Delete (db s) dbKey in
    (mk d, err).

Definition Put (s : t) (collection key : string) (value : V) : t * option error :=
  if bool_decide (key = "") then (s, Some ErrInvalidKey)
  else
    match json_Marshal value with
    | Err err => (s, Some (Errorf_w "failed to serialize value" err))
    | Ok data =>
        let dbKey := makeKey collection key in
        match db_Put (db s) dbKey data with
        | (d, Some err) => (mk d, Some (Errorf_w "failed to store value" err))
        | (d, None) => (mk d, None)
        end
    end.

Definition Get (s : t) (collection key : string) : result V :=
  if bool_decide (key = "") then Err ErrInvalidKey
  else
    let dbKey := makeKey collection key in
    match db_Get (db s) dbKey with
    | Err err =>
        if bool_decide (err = leveldb_ErrNotFound) then Err ErrKeyNotFound
        else Err (Errorf_w "failed to retrieve value" err)
    | Ok data =>
        match json_Unmarshal data with
        | Err err => Err (Errorf_w "failed to deserialize value" err)
        | Ok value => Ok value
        end
    end.

Definition Delete (s : t) (collection key : string) : t * option error :=
  if bool_decide (key = "") then (s, Some ErrInvalidKey)
  else
    let dbKey := makeKey collection key in
    match db_Get (db s) dbKey with
    | Err err =>
        if bool_decide (err = leveldb_ErrNotFound) then (s, Some ErrKeyNotFound)
        else (s, Some (Errorf_w "failed to check key existence" err))
    | Ok _ =>
        match db_Delete (db s) dbKey with
        | (d, Some err) => (mk d, Some (Errorf_w "failed to delete key" err))
        | (d, None) => (mk d, None)
        end
    end.

End WithEngine.
Arguments t : clear implicits.

Section WithIterator.
Context {DB V : Type} `{!Iterable DB} `{!Json V}.

(** The loop body of [List]: an entry whose value does not parse is
    skipped. *)
Definition List_step (collection : string) (result : gmap string V)
    (entry : string * bytes) : gmap string V :=
  let actualKey := slice_from (String.length collection + 1) entry.1 in
  match json_Unmarshal entry.2 with
  | Err _ => result
  | Ok val => <[actualKey := val]> result
  end.

Definition List (s : t DB) (collection : string) : result (gmap string V) :=
  let '(entries, ierr) := db_IteratePrefix (db s) (collection +:+ ":") in
  let result := foldl (List_step collection) ∅ entries in
  match ierr with
  | Some err => Err (Errorf_w "iterator error" err)
  | None => Ok result
  end.

(** The collection names are returned in the order of a Go map range,
    which is unspecified; the result is the set of them. *)
Definition ListCollections (s : t DB) : result (gset string) :=
  let '(entries, ierr) := db_Iterate (db s) in
  let collections :=
    foldl (λ (collections : gset string) (entry : string * bytes),
             match cut_colon entry.1 with
             | Some (before, _) => {[ before ]} ∪ collections
             | None => collections
             end) ∅ entries in
  match ierr with
  | Some err => Err (Errorf_w "iterator error" err)
  | None => Ok collections
  end.

Definition Count (s : t DB) (collection : string) : result Z :=
  let '(entries, ierr) := db_IteratePrefix (db s) (collection +:+ ":") in
  let count := Z.of_nat (length entries) in
  match ierr with
  | Some err => Err (Errorf_w "iterator error" err)
  | None => Ok count
  end.

End WithIterator.
End LevelDBStore.

(** ** Package [proto]: the wire messages *)

(** Modelled from the spec: the generated package [kiwi/proto] (message
    structs and the [OperationType] enum) is missing; section 6 of the
    specification gives the fields of the four replication messages and the
    enum values PUT=0, DELETE=1.  A protobuf enum is an [int32] on the Go
    side, so a request can carry a number that names no operation. *)
Module pb.

Definition OperationType : Type := Z.
Definition OperationType_PUT : OperationType := 0.
Definition OperationType_DELETE : OperationType := 1.

Module PrepareRequest.
Record t : Type := mk {
  TransactionId : string;
  Operation : OperationType;
  Collection : string;
  Key : string;
  Value : bytes;
  Sequence : Z
}.
End PrepareRequest.

Module PrepareResponse.
Record t : Type := mk { Ready : bool }.
End PrepareResponse.

Module CommitRequest.
Record t : Type := mk { TransactionId : string }.
End CommitRequest.

Module CommitResponse.
Record t : Type := mk { Success : bool; Error : string }.
End CommitResponse.

Module AbortRequest.
Record t : Type := mk { TransactionId : string }.
End AbortRequest.

Module AbortResponse.
Record t : Type := mk { Success : bool }.
End AbortResponse.

End pb.

(** ** Package [replication]: the participant *)

Module PendingTransaction.
Record t : Type := mk {
  Operation : pb.OperationType;
  Collection : string;
  Key : string;
  Value : bytes
}.
End PendingTransaction.

Module Server.
Section WithEngine.
Context {DB : Type} `{!Engine DB}.

(** The fields the three phase handlers read or write.  Every handler
    holds [mu] from entry to exit, so a handler is one atomic step on
    this state. *)
Record t : Type := mk {
  storage : LevelDBStore.t DB;
  seq : Z;
  pending : gmap string PendingTransaction.t
}.

(** [NewServer]. *)
Definition NewServer (storage : LevelDBStore.t DB) : t :=
  mk storage 0 ∅.

(** Phase 1.  The Go error result is always [nil] and is left out. *)
Definition Prepare (s : t) (req : pb.PrepareRequest.t)
  : t * pb.PrepareResponse.t :=
  match pending s !! pb.PrepareRequest.TransactionId req with
  | Some _ => (s, pb.PrepareResponse.mk true)
  | None =>
      (mk (storage s) (seq s)
          (<[pb.PrepareRequest.TransactionId req :=
               PendingTransaction.mk
                 (pb.PrepareRequest.Operation req)
                 (pb.PrepareRequest.Collection req)
                 (pb.PrepareRequest.Key req)
                 (pb.PrepareRequest.Value req)]> (pending s)),
       pb.PrepareResponse.mk true)
  end.

(** The [switch txn.Operation] of [Commit]: a number that is neither PUT
    nor DELETE matches no case and leaves [err] nil. *)
Definition apply (st : LevelDBStore.t DB) (txn : PendingTransaction.t)
  : LevelDBStore.t DB * option error :=
  if bool_decide (PendingTransaction.Operation txn = pb.OperationType_PUT) then
    LevelDBStore.PutDirect st (PendingTransaction.Collection txn)
      (PendingTransaction.Key txn) (PendingTransaction.Value txn)
  else if bool_decide (PendingTransaction.Operation txn = pb.OperationType_DELETE) then
    LevelDBStore.DeleteDirect st (PendingTransaction.Collection txn)
      (PendingTransaction.Key txn)
  else (st, None).

(** Phase 2, commit. *)
Definition Commit (s : t) (req : pb.CommitRequest.t)
  : t * pb.CommitResponse.t :=
  match pending s !! pb.CommitRequest.TransactionId req with
  | None => (s, pb.CommitResponse.mk false "transaction not found")
  | Some txn =>
      match apply (storage s) txn with
      | (st, Some err) =>
          (mk st (seq s) (pending s), pb.CommitResponse.mk false (Error err))
      | (st, None) =>
          (mk st (seq s) (delete (pb.CommitRequest.TransactionId req) (pending s)),
           pb.CommitResponse.mk true "")
      end
  end.

(** Phase 2, abort. *)
Definition Abort (s : t) (req : pb.AbortRequest.t)
  : t * pb.AbortResponse.t :=
  (mk (storage s) (seq s) (delete (pb.AbortRequest.TransactionId req) (pending s)),
   pb.AbortResponse.mk true).

(** A run of Prepare deliveries, oldest first. *)
Definition prepares (s : t) (reqs : list pb.PrepareRequest.t) : t :=
  foldl (λ s req, fst (Prepare s req)) s reqs.

(** The entries of [pending] staged under transaction id [txn]. *)
Definition staged (txn : string) (s : t) : list (string * PendingTransaction.t) :=
  filter (λ kv, kv.1 = txn) (map_to_list (pending s)).

End WithEngine.
Arguments t : clear implicits.
End Server.

(** ** Package [replication]: the coordinator *)

(** The gRPC channel as the coordinator sees it: a call to an address
    either fails in transport (deadline exceeded, peer unreachable) or
    yields the peer's response, and may change the rest of the cluster [W].
    No law is assumed about the peers. *)
Class Transport (W : Type) : Type := {
  rpc_Prepare : string → pb.PrepareRequest.t → W → W * result pb.PrepareResponse.t;
  rpc_Commit : string → pb.CommitRequest.t → W → W * result pb.CommitResponse.t;
  rpc_Abort : string → pb.AbortRequest.t → W → W * result pb.AbortResponse.t
}.

(** One request put on the wire, with the address it went to. *)
Inductive Rpc : Type :=
| SentPrepare (addr : string) (req : pb.PrepareRequest.t)
| SentCommit (addr : string) (req : pb.CommitRequest.t)
| SentAbort (addr : string) (req : pb.AbortRequest.t).

(** The cluster beyond this process together with the requests sent to it
    so far, oldest first. *)
Record Net (W : Type) : Type := mkNet {
  world : W;
  sent : list Rpc
}.
Arguments mkNet {W} world sent.
Arguments world {W} n.
Arguments sent {W} n.

(** Addresses that were sent a commit, an abort, a prepare; and the
    sequence numbers the prepares carried. *)
Definition commit_addrs (tr : list Rpc) : list string :=
  omap (λ r, match r with SentCommit a _ => Some a | _ => None end) tr.

Definition abort_addrs (tr : list Rpc) : list string :=
  omap (λ r, match r with SentAbort a _ => Some a | _ => None end) tr.

Definition prepare_addrs (tr : list Rpc) : list string :=
  omap (λ r, match r with SentPrepare a _ => Some a | _ => None end) tr.

Definition prepare_seqs (tr : list Rpc) : list Z :=
  omap (λ r, match r with
             | SentPrepare _ req => Some (pb.PrepareRequest.Sequence req)
             | _ => None
             end) tr.

Module Client.
Section WithTransport.
Context {W : Type} `{!Transport W}.

(** A client is told apart by the address it dialled. *)
Record t : Type := mk { addr : string }.

Definition Address (c : t) : string := addr c.

Definition Prepare (c : t) (txnID : string) (op : pb.OperationType)
    (collection key : string) (value : bytes) (seq : Z) (n : Net W)
  : Net W * (bool * option error) :=
  let req := pb.PrepareRequest.mk txnID op collection key value seq in
  let '(w, r) := rpc_Prepare (addr c) req (world n) in
  let n' := mkNet w (sent n ++ [SentPrepare (addr c) req]) in
  match r with
  | Err err =>
      (n', (false, Some (Errorf_w ("prepare to " +:+ addr c +:+ " failed") err)))
  | Ok resp => (n', (pb.PrepareResponse.Ready resp, None))
  end.

Definition Commit (c : t) (txnID : string) (n : Net W) : Net W * option error :=
  let req := pb.CommitRequest.mk txnID in
  let '(w, r) := rpc_Commit (addr c) req (world n) in
  let n' := mkNet w (sent n ++ [SentCommit (addr c) req]) in
  match r with
  | Err err => (n', Some (Errorf_w ("commit to " +:+ addr c +:+ " failed") err))
  | Ok resp =>
      if negb (pb.CommitResponse.Success resp) then
        (n', Some (errors_New ("commit to " +:+ addr c +:+ " rejected: "
                                 +:+ pb.CommitResponse.Error resp)))
      else (n', None)
  end.

Definition Abort (c : t) (txnID : string) (n : Net W) : Net W * option error :=
  let req := pb.AbortRequest.mk txnID in
  let '(w, r) := rpc_Abort (addr c) req (world n) in
  let n' := mkNet w (sent n ++ [SentAbort (addr c) req]) in
  match r with
  | Err err => (n', Some (Errorf_w ("abort to " +:+ addr c +:+ " failed") err))
  | Ok _ => (n', None)
  end.

End WithTransport.
End Client.

(** The three fan-outs of a round. *)
Inductive Phase : Type := PhasePrepare | PhaseCommit | PhaseAbort.

(** Each fan-out starts one goroutine per client and gathers what they
    deliver.  A scheduler fixes, per phase, the order in which the
    goroutines of the given clients make their call and deliver; it is
    meant to return a permutation of its argument. *)
Definition Scheduler : Type := Phase → list Client.t → list Client.t.

(** Goroutines run in the order of the client slice. *)
Definition in_order : Scheduler := λ _ cs, cs.

Module Manager.
Section WithTransport.
Context {W : Type} `{!Transport W}.

Record t : Type := mk {
  clients : list Client.t;
  seq : Z;
  txnID : Z
}.

Definition SlaveCount (m : t) : Z := Z.of_nat (length (clients m)).

(** [atomic.AddUint64(&m.txnID, 1)] and the formatted id; [now] is the
    reading of [time.Now().UnixNano()]. *)
Definition generateTxnID (m : t) (now : Z) : t * string :=
  let id := (txnID m + 1) mod 2 ^ 64 in
  (mk (clients m) (seq m) id, "txn-" +:+ pretty now +:+ "-" +:+ pretty id).

(** [m.seq++; return m.seq] under [m.mu], on a [uint64]. *)
Definition nextSeq (m : t) : t * Z :=
  let s := (seq m + 1) mod 2 ^ 64 in
  (mk (clients m) s (txnID m), s).

(** [prepareResult] of [replicate2PC]. *)
Record prepareResult : Type := mkPrepareResult {
  client : Client.t;
  ready : bool;
  err : option error
}.

(** The goroutines of phase 1, run in the given order; the list is what
    arrives on [prepareChan], first delivered first. *)
Fixpoint sendPrepares (cs : list Client.t) (txnID : string)
    (op : pb.OperationType) (collection key : string) (value : bytes)
    (seq : Z) (n : Net W) : Net W * list prepareResult :=
  match cs with
  | [] => (n, [])
  | c :: cs' =>
      let '(n1, (ready, err)) :=
        Client.Prepare c txnID op collection key value seq n in
      let '(n2, rs) := sendPrepares cs' txnID op collection key value seq n1 in
      (n2, mkPrepareResult c ready err :: rs)
  end.

(** The loop that drains [prepareChan]: [allReady], [preparedClients]
    and [prepareErrors] after the last receive. *)
Definition collectPrepares (results : list prepareResult)
  : bool * list Client.t * list error :=
  foldl (λ '(allReady, preparedClients, prepareErrors) result,
           match err result with
           | Some e => (false, preparedClients, prepareErrors ++ [e])
           | None =>
               if negb (ready result)
               then (false, preparedClients, prepareErrors)
               else (allReady, preparedClients ++ [client result], prepareErrors)
           end)
        (true, [], []) results.

(** The goroutines of the commit fan-out; the list is what arrives on
    [commitChan]. *)
Fixpoint sendCommits (cs : list Client.t) (txnID : string) (n : Net W)
  : Net W * list (option error) :=
  match cs with
  | [] => (n, [])
  | c :: cs' =>
      let '(n1, e) := Client.Commit c txnID n in
      let '(n2, es) := sendCommits cs' txnID n1 in
      (n2, e :: es)
  end.

(** The loop that drains [commitChan]: [commitErrors]. *)
Definition collectCommits (results : list (option error)) : list error :=
  foldl (λ commitErrors r,
           match r with
           | Some e => commitErrors ++ [e]
           | None => commitErrors
           end)
        [] results.

(** [abortAll]: one abort per given client; an abort that fails is only
    logged. *)
Fixpoint sendAborts (cs : list Client.t) (txnID : string) (n : Net W) : Net W :=
  match cs with
  | [] => n
  | c :: cs' => sendAborts cs' txnID (fst (Client.Abort c txnID n))
  end.

Definition abortAll (sch : Scheduler) (txnID : string) (cs : list Client.t)
    (n : Net W) : Net W :=
  sendAborts (sch PhaseAbort cs) txnID n.

Definition replicate2PC (sch : Scheduler) (now : Z) (m : t)
    (op : pb.OperationType) (collection key : string) (value : bytes)
    (n : Net W) : t * Net W * option error :=
  if bool_decide (length (clients m) = 0%nat) then (m, n, None)
  else
    let '(m1, txnID) := generateTxnID m now in
    let '(m2, seq) := nextSeq m1 in
    let '(n1, results) :=
      sendPrepares (sch PhasePrepare (clients m2)) txnID op collection key
        value seq n in
    let '(allReady, preparedClients, prepareErrors) := collectPrepares results in
    if negb allReady then
      let n2 := abortAll sch txnID preparedClients n1 in
      match prepareErrors with
      | e :: _ =>
          (m2, n2, Some (errors_New ("2PC prepare failed: " +:+ Error e)))
      | [] =>
          (m2, n2, Some (errors_New "2PC prepare rejected by one or more slaves"))
      end
    else
      let '(n2, commits) := sendCommits (sch PhaseCommit (clients m2)) txnID n1 in
      match collectCommits commits with
      | e :: _ =>
          (m2, n2, Some (errors_New ("2PC commit partially failed: " +:+ Error e)))
      | [] => (m2, n2, None)
      end.

Definition ReplicatePut (sch : Scheduler) (now : Z) (m : t)
    (collection key : string) (value : bytes) (n : Net W)
  : t * Net W * option error :=
  replicate2PC sch now m pb.OperationType_PUT collection key value n.

Definition ReplicateDelete (sch : Scheduler) (now : Z) (m : t)
    (collection key : string) (n : Net W) : t * Net W * option error :=
  replicate2PC sch now m pb.OperationType_DELETE collection key [] n.

(** [NewManager]; [dial addr] is the outcome of [NewClient(addr)], the
    blocking dial with its five-second limit.  An empty address and an
    address that cannot be dialled are passed over. *)
Definition NewManager (dial : string → option error) (slaveAddrs : list string)
  : t :=
  foldl (λ m addr,
           if bool_decide (addr = "") then m
           else match dial addr with
                | Some _ => m
                | None => mk (clients m ++ [Client.mk addr]) (seq m) (txnID m)
                end)
        (mk [] 0 0) slaveAddrs.

(** *** Views of one round and runs of several *)

(** What phase 1 of the round [replicate2PC sch now m op ...] receives on
    [prepareChan], and the network after it. *)
Definition prepareResults (sch : Scheduler) (now : Z) (m : t)
    (op : pb.OperationType) (collection key : string) (value : bytes)
    (n : Net W) : Net W * list prepareResult :=
  let '(m1, txnID) := generateTxnID m now in
  let '(m2, seq) := nextSeq m1 in
  sendPrepares (sch PhasePrepare (clients m2)) txnID op collection key value seq n.

(** What the commit fan-out of that round receives on [commitChan] when
    it follows phase 1, and the network after it. *)
Definition commitResults (sch : Scheduler) (now : Z) (m : t)
    (op : pb.OperationType) (collection key : string) (value : bytes)
    (n : Net W) : Net W * list (option error) :=
  let '(m1, txnID) := generateTxnID m now in
  let '(m2, seq) := nextSeq m1 in
  sendCommits (sch PhaseCommit (clients m2)) txnID
    (fst (prepareResults sch now m op collection key value n)).

(** A result that counts as ready in the tally. *)
Definition responded_ready (r : prepareResult) : bool :=
  match err r with
  | Some _ => false
  | None => ready r
  end.

(** [k] successive calls of [nextSeq], with the numbers handed out. *)
Fixpoint acquire (k : nat) (m : t) : t * list Z :=
  match k with
  | O => (m, [])
  | S k' =>
      let '(m1, s) := nextSeq m in
      let '(m2, ss) := acquire k' m1 in
      (m2, s :: ss)
  end.

(** The arguments of one [replicate2PC] call. *)
Record Call : Type := mkCall {
  call_sch : Scheduler;
  call_now : Z;
  call_op : pb.OperationType;
  call_collection : string;
  call_key : string;
  call_value : bytes
}.

(** Successive rounds on one coordinator; for each round, the requests it
    put on the wire. *)
Fixpoint replicateAll (calls : list Call) (m : t) (n : Net W)
  : t * Net W * list (list Rpc) :=
  match calls with
  | [] => (m, n, [])
  | c :: calls' =>
      let '(m1, n1, _) :=
        replicate2PC (call_sch c) (call_now c) m (call_op c)
          (call_collection c) (call_key c) (call_value c) n in
      let '(m2, n2, trs) := replicateAll calls' m1 n1 in
      (m2, n2, drop (length (sent n)) (sent n1) :: trs)
  end.

End WithTransport.
End Manager.

(** ** Package [storage]: the replicated store *)

Module ReplicatedStore.
Section WithCollaborators.
Context {DB V W : Type} `{!Engine DB} `{!Json V} `{!Transport W}.

(** [manager] is [nil] on a node that is not the master. *)
Record t : Type := mk {
  store : LevelDBStore.t DB;
  config : Config.t;
  manager : option Manager.t
}.

(** [s.manager != nil && s.manager.SlaveCount() > 0]. *)
Definition replicates (s : t) : option Manager.t :=
  match manager s with
  | Some m => if bool_decide (0 < Manager.SlaveCount m) then Some m else None
  | None => None
  end.

Definition Put (sch : Scheduler) (now : Z) (s : t) (collection key : string)
    (value : V) (n : Net W) : t * Net W * option error :=
  if Config.IsSlave (config s) then
    (s, n, Some (errors_New
                   "writes not allowed on slave nodes, send request to master"))
  else
    match json_Marshal value with
    | Err err => (s, n, Some (Errorf_w "failed to serialize value" err))
    | Ok data =>
        let '(mgr, n1, rerr) :=
          match replicates s with
          | Some m =>
              let '(m', n', e) := Manager.ReplicatePut sch now m collection key data n in
              (Some m', n', e)
          | None => (manager s, n, None)
          end in
        match rerr with
        | Some err =>
            (mk (store s) (config s) mgr, n1, Some (Errorf_w "replication failed" err))
        | None =>
            match LevelDBStore.Put (store s) collection key value with
            | (st, Some err) =>
                (mk st (config s) mgr, n1,
                 Some (Errorf_w
                   "local write failed after replication (inconsistency possible)"
                   err))
            | (st, None) => (mk st (config s) mgr, n1, None)
            end
        end
    end.

Definition Get (s : t) (collection key : string) : result V :=
  LevelDBStore.Get (store s) collection key.

Definition Delete (sch : Scheduler) (now : Z) (s : t) (collection key : string)
    (n : Net W) : t * Net W * option error :=
  if Config.IsSlave (config s) then
    (s, n, Some (errors_New
                   "deletes not allowed on slave nodes, send request to master"))
  else
    match LevelDBStore.Get (V:=V) (store s) collection key with
    | Err err => (s, n, Some err)
    | Ok _ =>
        let '(mgr, n1, rerr) :=
          match replicates s with
          | Some m =>
              let '(m', n', e) := Manager.ReplicateDelete sch now m collection key n in
              (Some m', n', e)
          | None => (manager s, n, None)
          end in
        match rerr with
        | Some err =>
            (mk (store s) (config s) mgr, n1, Some (Errorf_w "replication failed" err))
        | None =>
            match LevelDBStore.Delete (store s) collection key with
            | (st, Some err) =>
                (mk st (config s) mgr, n1,
                 Some (Errorf_w
                   "local delete failed after replication (inconsistency possible)"
                   err))
            | (st, None) => (mk st (config s) mgr, n1, None)
            end
        end
    end.

End WithCollaborators.
Arguments t : clear implicits.

Section Reads.
Context {DB V : Type} `{!Iterable DB} `{!Json V}.

Definition List (s : t DB) (collection : string) : result (gmap string V) :=
  LevelDBStore.List (store s) collection.

Definition Count (s : t DB) (collection : string) : result Z :=
  LevelDBStore.Count (store s) collection.

Definition ListCollections (s : t DB) : result (gset string) :=
  LevelDBStore.ListCollections (store s).

End Reads.
End ReplicatedStore.

(** ** A cluster to run rounds against *)

(** What answers at an address: a participant running [Server] over an
    in-memory engine, a stand-in that refuses every prepare, or nothing
    (the call fails in transport). *)
Inductive Peer : Type :=
| Live (s : Server.t MemDB)
| Refusing
| Down.

Definition unavailable : error := errors_New "rpc error: code = Unavailable".

Definition Cluster_Prepare (a : string) (req : pb.PrepareRequest.t)
    (w : gmap string Peer) : gmap string Peer * result pb.PrepareResponse.t :=
  match w !! a with
  | Some (Live s) =>
      let '(s', resp) := Server.Prepare s req in (<[a:=Live s']> w, Ok resp)
  | Some Refusing => (w, Ok (pb.PrepareResponse.mk false))
  | Some Down | None => (w, Err unavailable)
  end.

Definition Cluster_Commit (a : string) (req : pb.CommitRequest.t)
    (w : gmap string Peer) : gmap string Peer * result pb.CommitResponse.t :=
  match w !! a with
  | Some (Live s) =>
      let '(s', resp) := Server.Commit s req in (<[a:=Live s']> w, Ok resp)
  | Some Refusing => (w, Ok (pb.CommitResponse.mk false "transaction not found"))
  | Some Down | None => (w, Err unavailable)
  end.

Definition Cluster_Abort (a : string) (req : pb.AbortRequest.t)
    (w : gmap string Peer) : gmap string Peer * result pb.AbortResponse.t :=
  match w !! a with
  | Some (Live s) =>
      let '(s', resp) := Server.Abort s req in (<[a:=Live s']> w, Ok resp)
  | Some Refusing => (w, Ok (pb.AbortResponse.mk true))
  | Some Down | None => (w, Err unavailable)
  end.

#[global] Instance Cluster_Transport : Transport (gmap string Peer) :=
  {| rpc_Prepare := Cluster_Prepare;
     rpc_Commit := Cluster_Commit;
     rpc_Abort := Cluster_Abort |}.

(** No live participant has [txn] staged. *)
Definition fresh_in (txn : string) (w : gmap string Peer) : Prop :=
  ∀ a s, w !! a = Some (Live s) → Server.pending s !! txn = None.

(** The participant at address [a] is live, no longer has [txn] staged and
    its engine shows the effect of the operation: the value under the
    composite key for a PUT, nothing under it for a DELETE. *)
Definition applied_at (op : pb.OperationType) (collection key : string)
    (value : bytes) (txn : string) (w : gmap string Peer) (a : string) : Prop :=
  ∃ s, w !! a = Some (Live s) ∧
       Server.pending s !! txn = None ∧
       (op = pb.OperationType_PUT →
        key ≠ "" ∧
        contents (LevelDBStore.db (Server.storage s))
          !! LevelDBStore.makeKey collection key = Some value) ∧
       (op = pb.OperationType_DELETE →
        key ≠ "" ∧
        contents (LevelDBStore.db (Server.storage s))
          !! LevelDBStore.makeKey collection key = None).

(** ** Package [main]: how a node is put together *)

Module Node.
Section WithEngine.
Context {DB : Type}.

(** What [main] builds from the configuration and the opened store: the
    replication server over the store, and the replicated store over the
    same store with a coordinator on the master only. *)
Definition start (cfg : Config.t) (dial : string → option error)
    (baseStore : LevelDBStore.t DB) : Server.t DB * ReplicatedStore.t DB :=
  let replManager :=
    if Config.IsMaster cfg
    then Some (Manager.NewManager dial (Config.SlaveAddrs cfg))
    else None in
  (Server.NewServer baseStore, ReplicatedStore.mk baseStore cfg replManager).

End WithEngine.
End Node.

(** ** Package [api]: the object handlers *)

Module Handler.
Section WithCollaborators.
Context {DB V W : Type} `{!Engine DB} `{!Iterable DB} `{!Json V} `{!Transport W}.

(** [fiber.StatusOK] and the three error statuses the handlers use. *)
Definition StatusOK : Z := 200.
Definition StatusBadRequest : Z := 400.
Definition StatusNotFound : Z := 404.
Definition StatusInternalServerError : Z := 500.

(** [models.PutRequest]. *)
Record PutRequest : Type := mkPutRequest {
  Key : string;
  Value : V
}.

(** What the handlers read from the request: the outcome of
    [c.BodyParser], [c.Params("key")] and [c.Query("collection",
    "default")]. *)
Record Ctx : Type := mkCtx {
  body : result PutRequest;
  param_key : string;
  collection : string
}.

(** The JSON documents of package [models]. *)
Inductive Body : Type :=
| ErrorResponse (Error_ : string)
| PutResponse (Message Key_ : string)
| GetResponse (Key_ : string) (Value_ : V)
| ListResponse (Count_ : Z) (Objects : gmap string V)
| DeleteResponse (Message Key_ : string).

Record Response : Type := mkResponse {
  Status : Z;
  JSON : Body
}.

Definition PutObject (sch : Scheduler) (now : Z) (store : ReplicatedStore.t DB)
    (c : Ctx) (n : Net W) : ReplicatedStore.t DB * Net W * Response :=
  match body c with
  | Err _ =>
      (store, n, mkResponse StatusBadRequest (ErrorResponse "Invalid JSON format"))
  | Ok req =>
      if bool_decide (Key req = "") then
        (store, n,
         mkResponse StatusBadRequest (ErrorResponse "Key field is required"))
      else
        match ReplicatedStore.Put sch now store (collection c) (Key req)
                (Value req) n with
        | (store', n', Some err) =>
            (store', n',
             mkResponse StatusInternalServerError (ErrorResponse (Error err)))
        | (store', n', None) =>
            (store', n',
             mkResponse StatusOK
               (PutResponse "Object stored successfully" (Key req)))
        end
  end.

Definition GetObject (store : ReplicatedStore.t DB) (c : Ctx) : Response :=
  match ReplicatedStore.Get store (collection c) (param_key c) with
  | Err err =>
      if bool_decide (err = ErrKeyNotFound) then
        mkResponse StatusNotFound (ErrorResponse "Key not found")
      else mkResponse StatusInternalServerError (ErrorResponse (Error err))
  | Ok value => mkResponse StatusOK (GetResponse (param_key c) value)
  end.

Definition ListObjects (store : ReplicatedStore.t DB) (c : Ctx) : Response :=
  match ReplicatedStore.List store (collection c) with
  | Err err => mkResponse StatusInternalServerError (ErrorResponse (Error err))
  | Ok objects =>
      mkResponse StatusOK (ListResponse (Z.of_nat (size objects)) objects)
  end.

Definition DeleteObject (sch : Scheduler) (now : Z) (store : ReplicatedStore.t DB)
    (c : Ctx) (n : Net W) : ReplicatedStore.t DB * Net W * Response :=
  match ReplicatedStore.Delete (V:=V) sch now store (collection c) (param_key c) n with
  | (store', n', Some err) =>
      if bool_decide (err = ErrKeyNotFound) then
        (store', n', mkResponse StatusNotFound (ErrorResponse "Key not found"))
      else
        (store', n',
         mkResponse StatusInternalServerError (ErrorResponse (Error err)))
  | (store', n', None) =>
      (store', n',
       mkResponse StatusOK
         (DeleteResponse "Object deleted successfully" (param_key c)))
  end.

End WithCollaborators.
End Handler.

(** ** Concrete nodes and requests used by the examples *)

Module Ex.

Definition one : bytes := [Byte.x31].
Definition two : bytes := [Byte.x32].

(** An empty, healthy engine, and one whose every call fails. *)
Definition store0 : LevelDBStore.t MemDB := LevelDBStore.mk (mkMemDB ∅ None).
Definition broken : LevelDBStore.t MemDB :=
  LevelDBStore.mk (mkMemDB ∅ (Some "leveldb: closed")).

(** A store that holds key [a] of collection [default]. *)
Definition store_a : LevelDBStore.t MemDB :=
  LevelDBStore.mk (mkMemDB {[ "default:a" := one ]} None).

Definition server0 : Server.t MemDB := Server.NewServer store0.

Definition prepare (txn : string) (op : pb.OperationType) (key : string)
    (value : bytes) (seq : Z) : pb.PrepareRequest.t :=
  pb.PrepareRequest.mk txn op "default" key value seq.

(** A participant that has staged [t1], a PUT of [a]. *)
Definition server1 : Server.t MemDB :=
  fst (Server.Prepare server0 (prepare "t1" pb.OperationType_PUT "a" one 1)).

Definition master : Config.t := Config.mk "node-1" "master" "50051" "" ["r1"; "r2"].
Definition replica : Config.t := Config.mk "node-2" "slave" "50051" "master:50051" [].

Definition r1 : Client.t := Client.mk "r1".
Definition r2 : Client.t := Client.mk "r2".
Definition manager0 : Manager.t := Manager.mk [r1; r2] 0 0.

(** Two live replicas; one live and one refusing; one live and one
    unreachable. *)
Definition healthy : gmap string Peer :=
  {[ "r1" := Live server0; "r2" := Live server0 ]}.
Definition refusing : gmap string Peer :=
  {[ "r1" := Live server0; "r2" := Refusing ]}.
Definition partitioned : gmap string Peer :=
  {[ "r1" := Live server0; "r2" := Down ]}.
(** Replica [r2] runs on an engine that fails every write. *)
Definition degraded : gmap string Peer :=
  {[ "r1" := Live server0; "r2" := Live (Server.NewServer broken) ]}.

Definition net (w : gmap string Peer) : Net (gmap string Peer) := mkNet w [].

Definition rs_master : ReplicatedStore.t MemDB :=
  ReplicatedStore.mk store0 master (Some manager0).
Definition rs_master_a : ReplicatedStore.t MemDB :=
  ReplicatedStore.mk store_a master (Some manager0).
Definition rs_replica : ReplicatedStore.t MemDB :=
  ReplicatedStore.mk store_a replica None.

(** Goroutines deliver in reverse order of the client slice. *)
Definition reversed : Scheduler := λ _ cs, reverse cs.

(** What the engine of the participant at an address holds under a key,
    and the transaction ids that participant has staged. *)
Definition peer_value (w : gmap string Peer) (a dbKey : string) : option bytes :=
  match w !! a with
  | Some (Live s) => contents (LevelDBStore.db (Server.storage s)) !! dbKey
  | _ => None
  end.

Definition peer_staged (w : gmap string Peer) (a : string) : list string :=
  match w !! a with
  | Some (Live s) => (map_to_list (Server.pending s)).*1
  | _ => []
  end.

Definition local_value (rs : ReplicatedStore.t MemDB) (dbKey : string)
  : option bytes :=
  contents (LevelDBStore.db (ReplicatedStore.store rs)) !! dbKey.

End Ex.

(** * Properties *)

(** ** The LevelDB adapter *)

Section Adapter.
Context {DB V : Type} `{!Engine DB} `{!Json V}.

Lemma makeKey_empty collection :
  LevelDBStore.makeKey collection "" = collection +:+ ":".
Proof. reflexivity. Qed.

(** C10. Each of Put, PutDirect, Get, Delete and DeleteDirect, called with
    the empty key, answers ErrInvalidKey and hands back the store as it
    was, for every engine; Get in particular answers ErrInvalidKey and
    not ErrKeyNotFound. *)
Theorem C10_empty_key_invalid (s : LevelDBStore.t DB) (collection : string)
    (value : V) (raw : bytes) :
  LevelDBStore.Put s collection "" value = (s, Some ErrInvalidKey) ∧
  LevelDBStore.PutDirect s collection "" raw = (s, Some ErrInvalidKey) ∧
  LevelDBStore.Get (V:=V) s collection "" = Err ErrInvalidKey ∧
  LevelDBStore.Get (V:=V) s collection "" ≠ Err ErrKeyNotFound ∧
  LevelDBStore.Delete s collection "" = (s, Some ErrInvalidKey) ∧
  LevelDBStore.DeleteDirect s collection "" = (s, Some ErrInvalidKey).
Proof. repeat split; done. Qed.

Lemma Get_absent (s : LevelDBStore.t DB) collection key :
  key ≠ "" →
  db_Get (LevelDBStore.db s) (LevelDBStore.makeKey collection key)
    = Err leveldb_ErrNotFound →
  LevelDBStore.Get (V:=V) s collection key = Err ErrKeyNotFound.
Proof.
  intros Hk Hget. unfold LevelDBStore.Get.
  rewrite bool_decide_false by done. by rewrite Hget.
Qed.

End Adapter.

(** The empty key is absent from an empty engine, and the engine would say
    so if asked; the adapter answers before asking. *)
Example Get_empty_key_on_empty_engine :
  db_Get (LevelDBStore.db Ex.store0) (LevelDBStore.makeKey "default" "")
    = Err leveldb_ErrNotFound ∧
  LevelDBStore.Get (V:=bytes) Ex.store0 "default" "" = Err ErrInvalidKey ∧
  LevelDBStore.Get (V:=bytes) Ex.store0 "default" "a" = Err ErrKeyNotFound.
Proof. repeat split; vm_compute; reflexivity. Qed.

(** ** The participant *)

Section Participant.
Context {DB : Type} `{!Engine DB}.
Implicit Types (s : Server.t DB) (txn : PendingTransaction.t).


Lemma Prepare_staged s req txn :
  Server.pending s !! pb.PrepareRequest.TransactionId req = Some txn →
  Server.Prepare s req = (s, pb.PrepareResponse.mk true).
Proof. intros H. unfold Server.Prepare. by rewrite H. Qed.

Lemma Prepare_fresh s req :
  Server.pending s !! pb.PrepareRequest.TransactionId req = None →
  Server.Prepare s req =
    (Server.mk (Server.storage s) (Server.seq s)
       (<[pb.PrepareRequest.TransactionId req :=
            PendingTransaction.mk (pb.PrepareRequest.Operation req)
              (pb.PrepareRequest.Collection req) (pb.PrepareRequest.Key req)
              (pb.PrepareRequest.Value req)]> (Server.pending s)),
     pb.PrepareResponse.mk true).
Proof. intros H. unfold Server.Prepare. by rewrite H. Qed.

(** An entry once staged survives every Prepare. *)
Lemma Prepare_keeps s req t txn :
  Server.pending s !! t = Some txn →
  Server.pending (fst (Server.Prepare s req)) !! t = Some txn.
Proof.
  intros H. unfold Server.Prepare.
  destruct (Server.pending s !! pb.PrepareRequest.TransactionId req) eqn:E;
    simpl; [done|].
  rewrite lookup_insert_ne; [done|]. intros Heq. rewrite Heq in E. congruence.
Qed.

Lemma prepares_keeps reqs s t txn :
  Server.pending s !! t = Some txn →
  Server.pending (Server.prepares s reqs) !! t = Some txn.
Proof.
  revert s. induction reqs as [|req reqs IH]; intros s H; simpl; [done|].
  apply IH. by apply Prepare_keeps.
Qed.

(** A key occurs once in the listing of a finite map. *)
Lemma filter_key_absent {A} (t : string) (l : list (string * A)) :
  t ∉ l.*1 → filter (λ kv, kv.1 = t) l = [].
Proof.
  induction l as [|[k v] l IH]; simpl; intros Hnin; [done|].
  apply not_elem_of_cons in Hnin as [Hne Hnin].
  rewrite filter_cons_False; [by apply IH|]. simpl. congruence.
Qed.

Lemma filter_key_once {A} (t : string) (x : A) (l : list (string * A)) :
  NoDup l.*1 → (t, x) ∈ l → filter (λ kv, kv.1 = t) l = [(t, x)].
Proof.
  induction l as [|[k v] l IH]; simpl; intros Hnd Hin.
  - by apply elem_of_nil in Hin.
  - apply NoDup_cons in Hnd as [Hk Hnd].
    apply elem_of_cons in Hin as [Heq|Hin].
    + injection Heq as <- <-.
      rewrite filter_cons_True by done. f_equal. by apply filter_key_absent.
    + assert (k ≠ t) as Hne.
      { intros ->. apply Hk. apply list_elem_of_fmap. by exists (t, x). }
      rewrite filter_cons_False by (simpl; congruence). by apply IH.
Qed.

Lemma staged_once t s txn :
  Server.pending s !! t = Some txn → Server.staged t s = [(t, txn)].
Proof.
  intros H. unfold Server.staged. apply filter_key_once.
  - apply NoDup_fst_map_to_list.
  - by apply elem_of_map_to_list.
Qed.

Lemma staged_none t s :
  Server.pending s !! t = None → Server.staged t s = [].
Proof.
  intros H. unfold Server.staged. apply filter_key_absent.
  intros Hin. apply list_elem_of_fmap in Hin as ([k v] & -> & Hin).
  apply elem_of_map_to_list in Hin. simpl in H. congruence.
Qed.

Lemma Prepare_twice s req :
  let '(s1, r1) := Server.Prepare s req in
  let '(s2, r2) := Server.Prepare s1 req in
  pb.PrepareResponse.Ready r1 = true ∧ pb.PrepareResponse.Ready r2 = true ∧
  s2 = s1 ∧
  length (Server.staged (pb.PrepareRequest.TransactionId req) s2) = 1%nat.
Proof.
  destruct (Server.pending s !! pb.PrepareRequest.TransactionId req)
    as [txn|] eqn:E.
  - rewrite (Prepare_staged _ _ _ E), (Prepare_staged _ _ _ E).
    by rewrite (staged_once _ _ _ E).
  - rewrite (Prepare_fresh _ _ E).
    set (s1 := Server.mk _ _ _).
    assert (E1 : Server.pending s1 !! pb.PrepareRequest.TransactionId req
                 = Some (PendingTransaction.mk (pb.PrepareRequest.Operation req)
                           (pb.PrepareRequest.Collection req)
                           (pb.PrepareRequest.Key req)
                           (pb.PrepareRequest.Value req)))
      by apply lookup_insert_eq.
    rewrite (Prepare_staged _ _ _ E1). by rewrite (staged_once _ _ _ E1).
Qed.

(** C1 (amended). A Prepare whose transaction id is not staged is staged
    under that id with the operation, collection, key and value of the
    request, and answered ready=true, whatever the key, the operation kind
    and the sequence number are; no other entry, the engine and the
    participant's own sequence field are left as they were. *)
Theorem C1_prepare_stages_unvalidated s req :
  Server.pending s !! pb.PrepareRequest.TransactionId req = None →
  let '(s', resp) := Server.Prepare s req in
  pb.PrepareResponse.Ready resp = true ∧
  Server.pending s' !! pb.PrepareRequest.TransactionId req =
    Some (PendingTransaction.mk (pb.PrepareRequest.Operation req)
            (pb.PrepareRequest.Collection req) (pb.PrepareRequest.Key req)
            (pb.PrepareRequest.Value req)) ∧
  (∀ t, t ≠ pb.PrepareRequest.TransactionId req →
        Server.pending s' !! t = Server.pending s !! t) ∧
  Server.storage s' = Server.storage s ∧
  Server.seq s' = Server.seq s.
Proof.
  intros E. rewrite (Prepare_fresh _ _ E). simpl.
  split_and!; try done.
  - apply lookup_insert_eq.
  - intros t Hne. by rewrite lookup_insert_ne.
Qed.

(** C2. Where transaction id t is staged, the same Prepare delivered
    again, and again, is answered ready=true both times, changes nothing,
    and leaves exactly one entry staged under t. *)
Theorem C2_prepare_idempotent s req txn :
  Server.pending s !! pb.PrepareRequest.TransactionId req = Some txn →
  let '(s1, r1) := Server.Prepare s req in
  let '(s2, r2) := Server.Prepare s1 req in
  pb.PrepareResponse.Ready r1 = true ∧ pb.PrepareResponse.Ready r2 = true ∧
  s1 = s ∧ s2 = s ∧
  Server.staged (pb.PrepareRequest.TransactionId req) s2
    = [(pb.PrepareRequest.TransactionId req, txn)].
Proof.
  intros E. rewrite (Prepare_staged _ _ _ E), (Prepare_staged _ _ _ E).
  by rewrite (staged_once _ _ _ E).
Qed.

(** C9. An entry staged under t is the same after any run of later
    Prepare calls; and a later Prepare that carries t with whatever
    operation, collection, key and value is answered ready=true and
    changes nothing. *)
Theorem C9_staged_entry_kept s t txn reqs req :
  Server.pending s !! t = Some txn →
  let s' := Server.prepares s reqs in
  Server.pending s' !! t = Some txn ∧
  (pb.PrepareRequest.TransactionId req = t →
   Server.Prepare s' req = (s', pb.PrepareResponse.mk true)).
Proof.
  intros E. simpl. split; [by apply prepares_keeps|].
  intros <-. apply Prepare_staged with txn. by apply prepares_keeps.
Qed.

Lemma Commit_unknown s req :
  Server.pending s !! pb.CommitRequest.TransactionId req = None →
  Server.Commit s req = (s, pb.CommitResponse.mk false "transaction not found").
Proof. intros E. unfold Server.Commit. by rewrite E. Qed.

(** C7. Commit of an id that is not staged answers success=false with
    error "transaction not found" and changes nothing; commit of a staged
    id whose apply returns an error answers success=false and keeps the
    entry; commit of a staged id whose apply returns no error answers
    success=true and removes the entry, and only that entry. *)
Theorem C7_commit_outcomes s req :
  let t := pb.CommitRequest.TransactionId req in
  let '(s', resp) := Server.Commit s req in
  (Server.pending s !! t = None →
     s' = s ∧ resp = pb.CommitResponse.mk false "transaction not found") ∧
  (∀ txn e,
     Server.pending s !! t = Some txn →
     snd (Server.apply (Server.storage s) txn) = Some e →
     Server.pending s' = Server.pending s ∧
     resp = pb.CommitResponse.mk false (Error e)) ∧
  (∀ txn,
     Server.pending s !! t = Some txn →
     snd (Server.apply (Server.storage s) txn) = None →
     Server.pending s' = delete t (Server.pending s) ∧
     Server.pending s' !! t = None ∧
     Server.storage s' = fst (Server.apply (Server.storage s) txn) ∧
     resp = pb.CommitResponse.mk true "").
Proof.
  simpl. unfold Server.Commit.
  destruct (Server.pending s !! pb.CommitRequest.TransactionId req)
    as [txn|] eqn:E.
  - destruct (Server.apply (Server.storage s) txn) as [st [e|]] eqn:Ea; simpl.
    + split_and!; [done| |].
      * intros txn' e' [= <-]. rewrite Ea. by intros [= <-].
      * intros txn' [= <-]. by rewrite Ea.
    + split_and!; [done| |].
      * intros txn' e' [= <-]. by rewrite Ea.
      * intros txn' [= <-] _. rewrite Ea. split_and!; try done.
        apply lookup_delete_eq.
  - split_and!; [done| |]; intros; congruence.
Qed.

Lemma Abort_removes s req :
  Server.pending (fst (Server.Abort s req))
    !! pb.AbortRequest.TransactionId req = None ∧
  snd (Server.Abort s req) = pb.AbortResponse.mk true.
Proof. split; [apply lookup_delete_eq|done]. Qed.

End Participant.

(** C1, counterexample. On a fresh participant a PUT with the empty key, an
    operation numbered 7, and, after a prepare with sequence number 5, a
    prepare with sequence number 3 are each answered ready=true and
    staged. *)
Lemma C1_counterexample :
  (let req := Ex.prepare "t1" pb.OperationType_PUT "" Ex.one 1 in
   Server.pending Ex.server0 !! "t1" = None ∧
   pb.PrepareRequest.Key req = "" ∧
   ¬ (pb.PrepareResponse.Ready (snd (Server.Prepare Ex.server0 req)) = false ∧
      Server.pending (fst (Server.Prepare Ex.server0 req))
        = Server.pending Ex.server0) ∧
   pb.PrepareResponse.Ready (snd (Server.Prepare Ex.server0 req)) = true ∧
   Server.pending (fst (Server.Prepare Ex.server0 req)) !! "t1"
     = Some (PendingTransaction.mk pb.OperationType_PUT "default" "" Ex.one)) ∧
  (let req := Ex.prepare "t1" 7 "a" Ex.one 1 in
   pb.PrepareRequest.Operation req ≠ pb.OperationType_PUT ∧
   pb.PrepareRequest.Operation req ≠ pb.OperationType_DELETE ∧
   pb.PrepareResponse.Ready (snd (Server.Prepare Ex.server0 req)) = true ∧
   Server.pending (fst (Server.Prepare Ex.server0 req)) !! "t1"
     = Some (PendingTransaction.mk 7 "default" "a" Ex.one)) ∧
  (let s5 := fst (Server.Prepare Ex.server0
                    (Ex.prepare "t1" pb.OperationType_PUT "a" Ex.one 5)) in
   let req := Ex.prepare "t2" pb.OperationType_PUT "b" Ex.two 3 in
   Server.pending s5 !! "t2" = None ∧
   pb.PrepareResponse.Ready (snd (Server.Prepare s5 req)) = true ∧
   Server.pending (fst (Server.Prepare s5 req)) !! "t2"
     = Some (PendingTransaction.mk pb.OperationType_PUT "default" "b" Ex.two)).
Proof.
  cbv zeta. split_and!; try (vm_compute; reflexivity); try (vm_compute; congruence).
  intros [H _]. vm_compute in H. congruence.
Qed.

Lemma C1_witness :
  let req := Ex.prepare "t1" pb.OperationType_PUT "" Ex.one 0 in
  let '(s', resp) := Server.Prepare Ex.server0 req in
  pb.PrepareResponse.Ready resp = true ∧
  Server.pending s' !! "t1" =
    Some (PendingTransaction.mk pb.OperationType_PUT "default" "" Ex.one) ∧
  (∀ t, t ≠ "t1" → Server.pending s' !! t = Server.pending Ex.server0 !! t) ∧
  Server.storage s' = Server.storage Ex.server0 ∧
  Server.seq s' = Server.seq Ex.server0.
Proof.
  exact (C1_prepare_stages_unvalidated Ex.server0
           (Ex.prepare "t1" pb.OperationType_PUT "" Ex.one 0) eq_refl).
Defined.

Lemma C2_witness :
  let req := Ex.prepare "t1" pb.OperationType_PUT "a" Ex.one 1 in
  let '(s1, r1) := Server.Prepare Ex.server1 req in
  let '(s2, r2) := Server.Prepare s1 req in
  pb.PrepareResponse.Ready r1 = true ∧ pb.PrepareResponse.Ready r2 = true ∧
  s1 = Ex.server1 ∧ s2 = Ex.server1 ∧
  Server.staged "t1" s2
    = [("t1", PendingTransaction.mk pb.OperationType_PUT "default" "a" Ex.one)].
Proof.
  exact (C2_prepare_idempotent Ex.server1
           (Ex.prepare "t1" pb.OperationType_PUT "a" Ex.one 1)
           (PendingTransaction.mk pb.OperationType_PUT "default" "a" Ex.one)
           eq_refl).
Defined.

Lemma C9_witness :
  let later := [Ex.prepare "t2" pb.OperationType_DELETE "b" [] 9;
                Ex.prepare "t1" pb.OperationType_DELETE "a" [] 2] in
  let s' := Server.prepares Ex.server1 later in
  Server.pending s' !! "t1"
    = Some (PendingTransaction.mk pb.OperationType_PUT "default" "a" Ex.one) ∧
  Server.Prepare s' (Ex.prepare "t1" pb.OperationType_DELETE "z" Ex.two 0)
    = (s', pb.PrepareResponse.mk true).
Proof.
  cbv zeta.
  destruct (C9_staged_entry_kept Ex.server1 "t1"
              (PendingTransaction.mk pb.OperationType_PUT "default" "a" Ex.one)
              [Ex.prepare "t2" pb.OperationType_DELETE "b" [] 9;
               Ex.prepare "t1" pb.OperationType_DELETE "a" [] 2]
              (Ex.prepare "t1" pb.OperationType_DELETE "z" Ex.two 0)
              eq_refl) as [H1 H2].
  split; [exact H1 | exact (H2 eq_refl)].
Defined.

Lemma C7_witness :
  (* an id that was never staged *)
  Server.Commit Ex.server0 (pb.CommitRequest.mk "t9")
    = (Ex.server0, pb.CommitResponse.mk false "transaction not found") ∧
  (* a staged PUT of the empty key: the engine adapter refuses it *)
  (let s := fst (Server.Prepare Ex.server0
                   (Ex.prepare "t1" pb.OperationType_PUT "" Ex.one 1)) in
   Server.pending (fst (Server.Commit s (pb.CommitRequest.mk "t1")))
     = Server.pending s ∧
   snd (Server.Commit s (pb.CommitRequest.mk "t1"))
     = pb.CommitResponse.mk false "invalid key") ∧
  (* a staged PUT of key a *)
  (Server.pending (fst (Server.Commit Ex.server1 (pb.CommitRequest.mk "t1")))
     !! "t1" = None ∧
   snd (Server.Commit Ex.server1 (pb.CommitRequest.mk "t1"))
     = pb.CommitResponse.mk true "").
Proof.
  cbv zeta. split_and!.
  - pose proof (C7_commit_outcomes Ex.server0 (pb.CommitRequest.mk "t9")) as H.
    cbv zeta in H.
    destruct (Server.Commit Ex.server0 (pb.CommitRequest.mk "t9")) as [s' resp].
    destruct H as (H & _ & _). destruct (H eq_refl) as [-> ->]. reflexivity.
  - pose proof (C7_commit_outcomes
                  (fst (Server.Prepare Ex.server0
                          (Ex.prepare "t1" pb.OperationType_PUT "" Ex.one 1)))
                  (pb.CommitRequest.mk "t1")) as H.
    cbv zeta in H.
    destruct (Server.Commit _ (pb.CommitRequest.mk "t1")) as [s' resp].
    destruct H as (_ & H & _).
    exact (proj1 (H (PendingTransaction.mk pb.OperationType_PUT "default" "" Ex.one)
                    ErrInvalidKey eq_refl eq_refl)).
  - pose proof (C7_commit_outcomes
                  (fst (Server.Prepare Ex.server0
                          (Ex.prepare "t1" pb.OperationType_PUT "" Ex.one 1)))
                  (pb.CommitRequest.mk "t1")) as H.
    cbv zeta in H.
    destruct (Server.Commit _ (pb.CommitRequest.mk "t1")) as [s' resp].
    destruct H as (_ & H & _).
    exact (proj2 (H (PendingTransaction.mk pb.OperationType_PUT "default" "" Ex.one)
                    ErrInvalidKey eq_refl eq_refl)).
  - pose proof (C7_commit_outcomes Ex.server1 (pb.CommitRequest.mk "t1")) as H.
    cbv zeta in H.
    destruct (Server.Commit Ex.server1 (pb.CommitRequest.mk "t1")) as [s' resp].
    destruct H as (_ & _ & H).
    exact (proj1 (proj2 (H (PendingTransaction.mk pb.OperationType_PUT "default" "a" Ex.one)
                           eq_refl eq_refl))).
  - pose proof (C7_commit_outcomes Ex.server1 (pb.CommitRequest.mk "t1")) as H.
    cbv zeta in H.
    destruct (Server.Commit Ex.server1 (pb.CommitRequest.mk "t1")) as [s' resp].
    destruct H as (_ & _ & H).
    exact (proj2 (proj2 (proj2 (H (PendingTransaction.mk pb.OperationType_PUT "default" "a" Ex.one)
                           eq_refl eq_refl)))).
Defined.

(** ** The replicated store: writes that never reach the coordinator *)

Section Facade.
Context {DB V W : Type} `{!Engine DB} `{!Json V} `{!Transport W}.
Implicit Types (rs : ReplicatedStore.t DB) (n : Net W).

(** C5. On a node whose role is slave, Put and Delete return an error and
    hand back the store, the coordinator and the network exactly as they
    were: nothing is written locally and no request is sent. *)
Theorem C5_replica_rejects_writes sch now rs collection key (value : V) n :
  Config.IsSlave (ReplicatedStore.config rs) = true →
  ReplicatedStore.Put sch now rs collection key value n =
    (rs, n, Some (errors_New
                    "writes not allowed on slave nodes, send request to master")) ∧
  ReplicatedStore.Delete (V:=V) sch now rs collection key n =
    (rs, n, Some (errors_New
                    "deletes not allowed on slave nodes, send request to master")).
Proof.
  intros H. unfold ReplicatedStore.Put, ReplicatedStore.Delete.
  by rewrite H.
Qed.

(** C6 (amended). On the master, Delete of a key that the engine reports
    absent returns ErrKeyNotFound when the key is non-empty and
    ErrInvalidKey when it is empty; in both cases the store, the
    coordinator and the network are handed back exactly as they were, so
    no round is started and nothing is deleted. *)
Theorem C6_delete_absent sch now rs collection key n :
  Config.IsSlave (ReplicatedStore.config rs) = false →
  db_Get (LevelDBStore.db (ReplicatedStore.store rs))
         (LevelDBStore.makeKey collection key) = Err leveldb_ErrNotFound →
  (key ≠ "" →
   ReplicatedStore.Delete (V:=V) sch now rs collection key n
     = (rs, n, Some ErrKeyNotFound)) ∧
  (key = "" →
   ReplicatedStore.Delete (V:=V) sch now rs collection key n
     = (rs, n, Some ErrInvalidKey)).
Proof.
  intros Hrole Habs. unfold ReplicatedStore.Delete. rewrite Hrole. split.
  - intros Hk. by rewrite (Get_absent _ _ _ Hk Habs).
  - intros ->. reflexivity.
Qed.

End Facade.

Lemma C5_witness :
  ReplicatedStore.Put Ex.reversed 7 Ex.rs_replica "default" "a" Ex.two
    (Ex.net Ex.healthy) =
    (Ex.rs_replica, Ex.net Ex.healthy,
     Some (errors_New "writes not allowed on slave nodes, send request to master")) ∧
  ReplicatedStore.Delete (V:=bytes) Ex.reversed 7 Ex.rs_replica "default" "a"
    (Ex.net Ex.healthy) =
    (Ex.rs_replica, Ex.net Ex.healthy,
     Some (errors_New "deletes not allowed on slave nodes, send request to master")).
Proof.
  exact (C5_replica_rejects_writes Ex.reversed 7 Ex.rs_replica "default" "a"
           Ex.two (Ex.net Ex.healthy) eq_refl).
Defined.

(** C6, counterexample. The master's engine is empty, so the empty key is
    absent from it, and Delete returns ErrInvalidKey, not ErrKeyNotFound. *)
Lemma C6_counterexample :
  Config.IsSlave (ReplicatedStore.config Ex.rs_master) = false ∧
  db_Get (LevelDBStore.db (ReplicatedStore.store Ex.rs_master))
         (LevelDBStore.makeKey "default" "") = Err leveldb_ErrNotFound ∧
  snd (ReplicatedStore.Delete (V:=bytes) in_order 7 Ex.rs_master "default" ""
         (Ex.net Ex.healthy)) = Some ErrInvalidKey ∧
  snd (ReplicatedStore.Delete (V:=bytes) in_order 7 Ex.rs_master "default" ""
         (Ex.net Ex.healthy)) ≠ Some ErrKeyNotFound.
Proof. split_and!; try (vm_compute; reflexivity). vm_compute. congruence. Qed.

Lemma C6_witness :
  ReplicatedStore.Delete (V:=bytes) in_order 7 Ex.rs_master "default" "b"
    (Ex.net Ex.healthy) = (Ex.rs_master, Ex.net Ex.healthy, Some ErrKeyNotFound) ∧
  ReplicatedStore.Delete (V:=bytes) in_order 7 Ex.rs_master "default" ""
    (Ex.net Ex.healthy) = (Ex.rs_master, Ex.net Ex.healthy, Some ErrInvalidKey).
Proof.
  split.
  - refine (proj1 (C6_delete_absent (V:=bytes) in_order 7 Ex.rs_master "default" "b"
                     (Ex.net Ex.healthy) eq_refl eq_refl) _).
    intros H. discriminate H.
  - exact (proj2 (C6_delete_absent (V:=bytes) in_order 7 Ex.rs_master "default" ""
                    (Ex.net Ex.healthy) eq_refl eq_refl) eq_refl).
Defined.

(** ** The coordinator: what one round sends and returns *)

Section Coordinator.
Context {W : Type} `{!Transport W}.
Implicit Types (m : Manager.t) (n : Net W) (cs : list Client.t).

Lemma Client_Prepare_sent (c : Client.t) txn op collection key value seq n :
  sent (fst (Client.Prepare c txn op collection key value seq n)) =
    sent n ++ [SentPrepare (Client.addr c)
                 (pb.PrepareRequest.mk txn op collection key value seq)].
Proof.
  unfold Client.Prepare. destruct (rpc_Prepare _ _ _) as [w [resp|e]]; done.
Qed.

Lemma Client_Commit_sent (c : Client.t) txn n :
  sent (fst (Client.Commit c txn n)) =
    sent n ++ [SentCommit (Client.addr c) (pb.CommitRequest.mk txn)].
Proof.
  unfold Client.Commit. destruct (rpc_Commit _ _ _) as [w [resp|e]]; [|done].
  by destruct (negb _).
Qed.

Lemma Client_Abort_sent (c : Client.t) txn n :
  sent (fst (Client.Abort c txn n)) =
    sent n ++ [SentAbort (Client.addr c) (pb.AbortRequest.mk txn)].
Proof.
  unfold Client.Abort. destruct (rpc_Abort _ _ _) as [w [resp|e]]; done.
Qed.

(** A commit call returns an error exactly when the transport failed or
    the participant answered success=false. *)
Lemma Client_Commit_error (c : Client.t) txn n :
  snd (Client.Commit c txn n) = None ↔
  ∃ resp, snd (rpc_Commit (Client.addr c) (pb.CommitRequest.mk txn) (world n))
            = Ok resp ∧ pb.CommitResponse.Success resp = true.
Proof.
  unfold Client.Commit. destruct (rpc_Commit _ _ _) as [w [resp|e]]; simpl.
  - destruct (pb.CommitResponse.Success resp) eqn:E; simpl; split.
    + intros _. by exists resp.
    + done.
    + done.
    + intros (resp' & [= <-] & H). congruence.
  - split; [done|]. by intros (resp' & H & _).
Qed.

(** A prepare call counts as ready exactly when the transport delivered a
    response and the response says ready=true. *)
Lemma Client_Prepare_ready (c : Client.t) txn op collection key value seq n :
  let r := snd (Client.Prepare c txn op collection key value seq n) in
  Manager.responded_ready (Manager.mkPrepareResult c r.1 r.2) = true ↔
  snd (rpc_Prepare (Client.addr c)
         (pb.PrepareRequest.mk txn op collection key value seq) (world n))
    = Ok (pb.PrepareResponse.mk true).
Proof.
  unfold Client.Prepare, Manager.responded_ready.
  destruct (rpc_Prepare _ _ _) as [w [[b]|e]]; simpl.
  - split; [by intros ->|by intros [= ->]].
  - done.
Qed.


Lemma sendPrepares_sent cs txn op collection key value seq n :
  sent (fst (Manager.sendPrepares cs txn op collection key value seq n)) =
    sent n ++ ((λ c, SentPrepare (Client.addr c)
                       (pb.PrepareRequest.mk txn op collection key value seq)) <$> cs).
Proof.
  revert n. induction cs as [|c cs IH]; intros n; simpl.
  - by rewrite app_nil_r.
  - pose proof (Client_Prepare_sent c txn op collection key value seq n) as Hc.
    destruct (Client.Prepare _ _ _ _ _ _ _ _) as [n1 [rdy e]].
    specialize (IH n1).
    destruct (Manager.sendPrepares _ _ _ _ _ _ _ _) as [n2 rs]. simpl in *.
    by rewrite IH, Hc, <- app_assoc.
Qed.

Lemma sendCommits_sent cs txn n :
  sent (fst (Manager.sendCommits cs txn n)) =
    sent n ++ ((λ c, SentCommit (Client.addr c) (pb.CommitRequest.mk txn)) <$> cs).
Proof.
  revert n. induction cs as [|c cs IH]; intros n; simpl.
  - by rewrite app_nil_r.
  - pose proof (Client_Commit_sent c txn n) as Hc.
    destruct (Client.Commit _ _ _) as [n1 e].
    specialize (IH n1).
    destruct (Manager.sendCommits _ _ _) as [n2 rs]. simpl in *.
    by rewrite IH, Hc, <- app_assoc.
Qed.

Lemma sendCommits_length cs txn n :
  length (snd (Manager.sendCommits cs txn n)) = length cs.
Proof.
  revert n. induction cs as [|c cs IH]; intros n; simpl; [done|].
  destruct (Client.Commit _ _ _) as [n1 e]. specialize (IH n1).
  destruct (Manager.sendCommits _ _ _) as [n2 rs]. simpl in *. by rewrite IH.
Qed.

Lemma sendAborts_sent cs txn n :
  sent (Manager.sendAborts cs txn n) =
    sent n ++ ((λ c, SentAbort (Client.addr c) (pb.AbortRequest.mk txn)) <$> cs).
Proof.
  revert n. induction cs as [|c cs IH]; intros n; simpl.
  - by rewrite app_nil_r.
  - by rewrite IH, Client_Abort_sent, <- app_assoc.
Qed.

(** The tally of phase 1, in closed form. *)
Lemma collectPrepares_spec (results : list Manager.prepareResult) :
  Manager.collectPrepares results =
    (forallb Manager.responded_ready results,
     Manager.client <$> filter (λ r, Manager.responded_ready r = true) results,
     omap Manager.err results).
Proof.
  unfold Manager.collectPrepares.
  enough (G : ∀ results (a : bool) (ps : list Client.t) (es : list error),
             foldl (λ '(allReady, preparedClients, prepareErrors) result,
                      match Manager.err result with
                      | Some e => (false, preparedClients, prepareErrors ++ [e])
                      | None =>
                          if negb (Manager.ready result)
                          then (false, preparedClients, prepareErrors)
                          else (allReady, preparedClients ++ [Manager.client result],
                                prepareErrors)
                      end) (a, ps, es) results =
             (a && forallb Manager.responded_ready results,
              ps ++ (Manager.client <$>
                       filter (λ r, Manager.responded_ready r = true) results),
              es ++ omap Manager.err results)).
  { by rewrite G. }
  clear results. induction results as [|r rs IH]; intros a ps es; simpl.
  - by rewrite andb_true_r, !app_nil_r.
  - destruct r as [c rdy [e|]]; simpl.
    + rewrite IH, filter_cons_False by done.
      by rewrite andb_false_r, <- app_assoc.
    + destruct rdy; simpl.
      * by rewrite IH, <- app_assoc.
      * rewrite IH, filter_cons_False by done.
        by rewrite andb_false_r.
Qed.

Lemma collectCommits_spec (results : list (option error)) :
  Manager.collectCommits results = omap id results.
Proof.
  unfold Manager.collectCommits.
  enough (G : ∀ results (es : list error),
             foldl (λ commitErrors r,
                      match r with
                      | Some e => commitErrors ++ [e]
                      | None => commitErrors
                      end) es results = es ++ omap id results).
  { by rewrite G. }
  clear results. induction results as [|[e|] rs IH]; intros es; simpl.
  - by rewrite app_nil_r.
  - by rewrite IH, <- app_assoc.
  - by rewrite IH.
Qed.

End Coordinator.

Section Rounds.
Context {W : Type} `{!Transport W}.
Implicit Types (m : Manager.t) (n : Net W) (cs : list Client.t).

Lemma responded_ready_true (r : Manager.prepareResult) :
  Manager.responded_ready r = true ↔ Manager.err r = None ∧ Manager.ready r = true.
Proof.
  unfold Manager.responded_ready. destruct (Manager.err r) as [e|]; split.
  - done.
  - intros [He _]. discriminate He.
  - done.
  - by intros [_ Hr].
Qed.

Lemma responded_ready_false (r : Manager.prepareResult) :
  Manager.responded_ready r = false ↔
  is_Some (Manager.err r) ∨ Manager.ready r = false.
Proof.
  unfold Manager.responded_ready. destruct (Manager.err r) as [e|].
  - split; [intros _; left; by exists e|done].
  - split; [by right|]. intros [[e He]|Hr]; [discriminate He|done].
Qed.

Lemma forallb_responded_ready (results : list Manager.prepareResult) :
  forallb Manager.responded_ready results = true ↔
  Forall (λ r, Manager.err r = None ∧ Manager.ready r = true) results.
Proof.
  rewrite forallb_forall, Forall_forall.
  split; intros H r Hin.
  - apply responded_ready_true, H. by apply list_elem_of_In.
  - apply responded_ready_true, H. by apply list_elem_of_In.
Qed.

Lemma forallb_responded_ready_false (results : list Manager.prepareResult) :
  forallb Manager.responded_ready results = false ↔
  Exists (λ r, is_Some (Manager.err r) ∨ Manager.ready r = false) results.
Proof.
  induction results as [|r rs IH]; simpl.
  - split; [done|]. by intros ?%Exists_nil.
  - rewrite Exists_cons, andb_false_iff, IH, responded_ready_false. done.
Qed.

(** The whole round, phase by phase, when there is at least one client. *)
Lemma replicate2PC_unfold sch now m op collection key value n :
  Manager.clients m ≠ [] →
  Manager.replicate2PC sch now m op collection key value n =
    let txn := snd (Manager.generateTxnID m now) in
    let m2 := fst (Manager.nextSeq (fst (Manager.generateTxnID m now))) in
    let '(n1, results) :=
      Manager.prepareResults sch now m op collection key value n in
    if forallb Manager.responded_ready results then
      let '(n2, commits) :=
        Manager.commitResults sch now m op collection key value n in
      (m2, n2,
       match omap id commits with
       | e :: _ => Some (errors_New ("2PC commit partially failed: " +:+ Error e))
       | [] => None
       end)
    else
      (m2,
       Manager.sendAborts
         (sch PhaseAbort
            (Manager.client <$>
               filter (λ r, Manager.responded_ready r = true) results))
         txn n1,
       Some (errors_New
               match omap Manager.err results with
               | e :: _ => "2PC prepare failed: " +:+ Error e
               | [] => "2PC prepare rejected by one or more slaves"
               end)).
Proof.
  intros Hne.
  unfold Manager.replicate2PC, Manager.commitResults, Manager.prepareResults.
  rewrite bool_decide_false by (by destruct (Manager.clients m)).
  cbn [Manager.generateTxnID Manager.nextSeq fst snd Manager.clients].
  destruct (Manager.sendPrepares _ _ _ _ _ _ _ _) as [n1 results].
  rewrite collectPrepares_spec. cbn [fst snd].
  destruct (forallb Manager.responded_ready results); cbn [negb].
  - destruct (Manager.sendCommits _ _ _) as [n2 commits].
    rewrite collectCommits_spec. by destruct (omap id commits).
  - unfold Manager.abortAll. by destruct (omap Manager.err results).
Qed.

Lemma commit_addrs_app (tr1 tr2 : list Rpc) :
  commit_addrs (tr1 ++ tr2) = commit_addrs tr1 ++ commit_addrs tr2.
Proof. apply omap_app. Qed.

Lemma abort_addrs_app (tr1 tr2 : list Rpc) :
  abort_addrs (tr1 ++ tr2) = abort_addrs tr1 ++ abort_addrs tr2.
Proof. apply omap_app. Qed.

Lemma prepare_seqs_app (tr1 tr2 : list Rpc) :
  prepare_seqs (tr1 ++ tr2) = prepare_seqs tr1 ++ prepare_seqs tr2.
Proof. apply omap_app. Qed.

Lemma addrs_of_prepares cs req :
  commit_addrs ((λ c, SentPrepare (Client.addr c) req) <$> cs) = [] ∧
  abort_addrs ((λ c, SentPrepare (Client.addr c) req) <$> cs) = [] ∧
  prepare_seqs ((λ c, SentPrepare (Client.addr c) req) <$> cs)
    = replicate (length cs) (pb.PrepareRequest.Sequence req).
Proof. induction cs as [|c cs (IH1 & IH2 & IH3)]; csimpl; [done|]. by rewrite IH3. Qed.

Lemma addrs_of_aborts cs req :
  commit_addrs ((λ c, SentAbort (Client.addr c) req) <$> cs) = [] ∧
  abort_addrs ((λ c, SentAbort (Client.addr c) req) <$> cs) = Client.addr <$> cs ∧
  prepare_seqs ((λ c, SentAbort (Client.addr c) req) <$> cs) = [].
Proof. induction cs as [|c cs (IH1 & IH2 & IH3)]; csimpl; [done|]. by rewrite IH2. Qed.

Lemma addrs_of_commits cs req :
  commit_addrs ((λ c, SentCommit (Client.addr c) req) <$> cs) = Client.addr <$> cs ∧
  abort_addrs ((λ c, SentCommit (Client.addr c) req) <$> cs) = [] ∧
  prepare_seqs ((λ c, SentCommit (Client.addr c) req) <$> cs) = [].
Proof. induction cs as [|c cs (IH1 & IH2 & IH3)]; csimpl; [done|]. by rewrite IH1. Qed.

(** C3. In a round where some prepare call came back with a transport
    error or with ready=false, the coordinator sends no commit, sends an
    abort to the participants whose prepare came back ready without error,
    to each of them once and to nobody else, and returns an error: the
    first transport error if there was one, a plain rejection otherwise. *)
Theorem C3_prepare_failure_aborts sch now m op collection key value n :
  (∀ cs, sch PhaseAbort cs ≡ₚ cs) →
  Manager.clients m ≠ [] →
  let '(n1, results) := Manager.prepareResults sch now m op collection key value n in
  Exists (λ r, is_Some (Manager.err r) ∨ Manager.ready r = false) results →
  let '(m', n', e) := Manager.replicate2PC sch now m op collection key value n in
  ∃ tr,
    sent n' = sent n ++ tr ∧
    commit_addrs tr = [] ∧
    abort_addrs tr ≡ₚ
      (λ r, Client.addr (Manager.client r)) <$>
        filter (λ r, Manager.responded_ready r = true) results ∧
    e = Some (errors_New
                match omap Manager.err results with
                | e0 :: _ => "2PC prepare failed: " +:+ Error e0
                | [] => "2PC prepare rejected by one or more slaves"
                end).
Proof.
  intros Hperm Hne.
  rewrite (replicate2PC_unfold _ _ _ _ _ _ _ _ Hne). cbv zeta.
  pose proof (sendPrepares_sent
                (sch PhasePrepare (Manager.clients m))
                (snd (Manager.generateTxnID m now)) op collection key value
                (snd (Manager.nextSeq (fst (Manager.generateTxnID m now)))) n) as Hs.
  change (Manager.sendPrepares _ _ _ _ _ _ _ _)
    with (Manager.prepareResults sch now m op collection key value n) in Hs.
  destruct (Manager.prepareResults _ _ _ _ _ _ _ _) as [n1 results].
  intros Hex. apply forallb_responded_ready_false in Hex. rewrite Hex.
  eexists. split_and!.
  - rewrite sendAborts_sent. simpl in Hs. rewrite Hs, <- app_assoc. reflexivity.
  - rewrite commit_addrs_app.
    rewrite (proj1 (addrs_of_prepares _ _)), (proj1 (addrs_of_aborts _ _)). done.
  - rewrite abort_addrs_app.
    rewrite (proj1 (proj2 (addrs_of_prepares _ _))).
    rewrite (proj1 (proj2 (addrs_of_aborts _ _))). simpl.
    rewrite Hperm. by rewrite <- list_fmap_compose.
  - done.
Qed.

End Rounds.

Lemma C3_witness :
  let '(m', n', e) :=
    Manager.replicate2PC Ex.reversed 7 Ex.manager0 pb.OperationType_PUT
      "default" "a" Ex.one (Ex.net Ex.partitioned) in
  ∃ tr,
    sent n' = [] ++ tr ∧
    commit_addrs tr = [] ∧
    abort_addrs tr ≡ₚ ["r1"] ∧
    e = Some (errors_New
                "2PC prepare failed: prepare to r2 failed: rpc error: code = Unavailable").
Proof.
  pose proof (C3_prepare_failure_aborts Ex.reversed 7 Ex.manager0
                pb.OperationType_PUT "default" "a" Ex.one (Ex.net Ex.partitioned)
                (λ cs, reverse_Permutation cs)) as H.
  assert (Hne : Manager.clients Ex.manager0 ≠ []) by discriminate.
  specialize (H Hne).
  vm_compute (Manager.prepareResults _ _ _ _ _ _ _ _) in H.
  apply H. apply Exists_cons_hd. left. eexists. reflexivity.
Defined.

(** ** The replicated store: writes that go through a round *)

Section Writes.
Context {DB V W : Type} `{!Engine DB} `{!Json V} `{!Transport W}.
Implicit Types (rs : ReplicatedStore.t DB) (m : Manager.t) (n : Net W).

Lemma omap_id_nil (l : list (option error)) :
  omap id l = [] ↔ Forall (λ c, c = None) l.
Proof.
  induction l as [|[e|] l IH]; csimpl.
  - split; [by constructor|done].
  - split; [done|]. intros H. apply Forall_cons in H as [H _]. discriminate H.
  - rewrite IH. split; [by constructor|]. by intros [_ ?]%Forall_cons.
Qed.

Lemma omap_id_cons (l : list (option error)) :
  Exists is_Some l → ∃ e, head (omap id l) = Some e.
Proof.
  induction l as [|[e|] l IH]; csimpl; intros H.
  - by apply Exists_nil in H.
  - by exists e.
  - apply IH. apply Exists_cons in H as [[e He]|H]; [discriminate He|done].
Qed.

(** What a round returns, read off the two fan-outs. *)
Lemma round_outcome sch now m op collection key value n :
  Manager.clients m ≠ [] →
  let '(_, results) := Manager.prepareResults sch now m op collection key value n in
  let '(n2, commits) := Manager.commitResults sch now m op collection key value n in
  let '(m', n', e) := Manager.replicate2PC sch now m op collection key value n in
  (Forall (λ r, Manager.err r = None ∧ Manager.ready r = true) results →
   Exists is_Some commits →
   ∃ e0, head (omap id commits) = Some e0 ∧
         e = Some (errors_New ("2PC commit partially failed: " +:+ Error e0)) ∧
         n' = n2) ∧
  (e = None →
   Forall (λ r, Manager.err r = None ∧ Manager.ready r = true) results ∧
   Forall (λ c, c = None) commits).
Proof.
  intros Hne. rewrite (replicate2PC_unfold _ _ _ _ _ _ _ _ Hne). cbv zeta.
  destruct (Manager.prepareResults _ _ _ _ _ _ _ _) as [n1 results].
  destruct (Manager.commitResults _ _ _ _ _ _ _ _) as [n2 commits].
  destruct (forallb Manager.responded_ready results) eqn:Hall.
  - apply forallb_responded_ready in Hall. split.
    + intros _ Hex. destruct (omap_id_cons _ Hex) as [e0 He0].
      exists e0. destruct (omap id commits) as [|e1 l]; [done|].
      by injection He0 as ->.
    + destruct (omap id commits) as [|e1 l] eqn:Ho; [|done].
      intros _. split; [done|]. by apply omap_id_nil.
  - split; [|done].
    intros Hall'. apply forallb_responded_ready in Hall'. congruence.
Qed.

Lemma replicates_Some rs m :
  ReplicatedStore.manager rs = Some m →
  Manager.clients m ≠ [] →
  ReplicatedStore.replicates rs = Some m.
Proof.
  intros Hm Hne. unfold ReplicatedStore.replicates, Manager.SlaveCount.
  rewrite Hm, bool_decide_true; [done|].
  destruct (Manager.clients m); [done|]. simpl. lia.
Qed.

Lemma Put_after_round sch now rs m collection key (value : V) data n :
  Config.IsSlave (ReplicatedStore.config rs) = false →
  ReplicatedStore.manager rs = Some m →
  Manager.clients m ≠ [] →
  json_Marshal value = Ok data →
  ReplicatedStore.Put sch now rs collection key value n =
    let '(m', n', e) :=
      Manager.replicate2PC sch now m pb.OperationType_PUT collection key data n in
    match e with
    | Some err =>
        (ReplicatedStore.mk (ReplicatedStore.store rs) (ReplicatedStore.config rs)
           (Some m'), n', Some (Errorf_w "replication failed" err))
    | None =>
        match LevelDBStore.Put (ReplicatedStore.store rs) collection key value with
        | (st, Some err) =>
            (ReplicatedStore.mk st (ReplicatedStore.config rs) (Some m'), n',
             Some (Errorf_w
                     "local write failed after replication (inconsistency possible)"
                     err))
        | (st, None) =>
            (ReplicatedStore.mk st (ReplicatedStore.config rs) (Some m'), n', None)
        end
    end.
Proof.
  intros Hrole Hm Hne Hj. unfold ReplicatedStore.Put.
  rewrite Hrole, Hj, (replicates_Some _ _ Hm Hne). unfold Manager.ReplicatePut.
  by destruct (Manager.replicate2PC _ _ _ _ _ _ _ _) as [[m' n'] [e|]].
Qed.

Lemma Delete_after_round sch now rs m collection key (v : V) n :
  Config.IsSlave (ReplicatedStore.config rs) = false →
  ReplicatedStore.manager rs = Some m →
  Manager.clients m ≠ [] →
  ReplicatedStore.Get rs collection key = Ok v →
  ReplicatedStore.Delete (V:=V) sch now rs collection key n =
    let '(m', n', e) :=
      Manager.replicate2PC sch now m pb.OperationType_DELETE collection key [] n in
    match e with
    | Some err =>
        (ReplicatedStore.mk (ReplicatedStore.store rs) (ReplicatedStore.config rs)
           (Some m'), n', Some (Errorf_w "replication failed" err))
    | None =>
        match LevelDBStore.Delete (ReplicatedStore.store rs) collection key with
        | (st, Some err) =>
            (ReplicatedStore.mk st (ReplicatedStore.config rs) (Some m'), n',
             Some (Errorf_w
                     "local delete failed after replication (inconsistency possible)"
                     err))
        | (st, None) =>
            (ReplicatedStore.mk st (ReplicatedStore.config rs) (Some m'), n', None)
        end
    end.
Proof.
  intros Hrole Hm Hne Hg. unfold ReplicatedStore.Delete.
  unfold ReplicatedStore.Get in Hg.
  rewrite Hrole, Hg, (replicates_Some _ _ Hm Hne). unfold Manager.ReplicateDelete.
  by destruct (Manager.replicate2PC _ _ _ _ _ _ _ _) as [[m' n'] [e|]].
Qed.

(** C4. On the master with at least one participant: when every prepare
    of the round came back ready and some commit call came back with an
    error, the coordinator returns a partial-commit error carrying the
    first such error, Put (and likewise Delete) returns that error wrapped
    as a replication failure, the network is as the commit fan-out left it
    and the local engine is as it was.  Conversely the local engine is
    changed by Put or Delete only in a round in which every prepare came
    back ready and every commit call came back without error. *)
Theorem C4_commit_failure_no_local_apply sch now rs m collection key :
  Config.IsSlave (ReplicatedStore.config rs) = false →
  ReplicatedStore.manager rs = Some m →
  Manager.clients m ≠ [] →
  (∀ (value : V) data n,
     json_Marshal value = Ok data →
     let '(_, results) :=
       Manager.prepareResults sch now m pb.OperationType_PUT collection key data n in
     let '(n2, commits) :=
       Manager.commitResults sch now m pb.OperationType_PUT collection key data n in
     let '(rs', n', e) := ReplicatedStore.Put sch now rs collection key value n in
     (Forall (λ r, Manager.err r = None ∧ Manager.ready r = true) results →
      Exists is_Some commits →
      ∃ e0, head (omap id commits) = Some e0 ∧
        snd (Manager.replicate2PC sch now m pb.OperationType_PUT collection key
               data n)
          = Some (errors_New ("2PC commit partially failed: " +:+ Error e0)) ∧
        e = Some (Errorf_w "replication failed"
                    (errors_New ("2PC commit partially failed: " +:+ Error e0))) ∧
        ReplicatedStore.store rs' = ReplicatedStore.store rs ∧
        n' = n2) ∧
     (ReplicatedStore.store rs' ≠ ReplicatedStore.store rs →
      Forall (λ r, Manager.err r = None ∧ Manager.ready r = true) results ∧
      Forall (λ c, c = None) commits)) ∧
  (∀ (v : V) n,
     ReplicatedStore.Get rs collection key = Ok v →
     let '(_, results) :=
       Manager.prepareResults sch now m pb.OperationType_DELETE collection key [] n in
     let '(n2, commits) :=
       Manager.commitResults sch now m pb.OperationType_DELETE collection key [] n in
     let '(rs', n', e) := ReplicatedStore.Delete (V:=V) sch now rs collection key n in
     (Forall (λ r, Manager.err r = None ∧ Manager.ready r = true) results →
      Exists is_Some commits →
      ∃ e0, head (omap id commits) = Some e0 ∧
        snd (Manager.replicate2PC sch now m pb.OperationType_DELETE collection key
               [] n)
          = Some (errors_New ("2PC commit partially failed: " +:+ Error e0)) ∧
        e = Some (Errorf_w "replication failed"
                    (errors_New ("2PC commit partially failed: " +:+ Error e0))) ∧
        ReplicatedStore.store rs' = ReplicatedStore.store rs ∧
        n' = n2) ∧
     (ReplicatedStore.store rs' ≠ ReplicatedStore.store rs →
      Forall (λ r, Manager.err r = None ∧ Manager.ready r = true) results ∧
      Forall (λ c, c = None) commits)).
Proof.
  intros Hrole Hm Hne. split.
  - intros value data n Hj.
    rewrite (Put_after_round _ _ _ _ _ _ _ _ _ Hrole Hm Hne Hj).
    pose proof (round_outcome sch now m pb.OperationType_PUT collection key data n
                  Hne) as H.
    destruct (Manager.prepareResults _ _ _ _ _ _ _ _) as [n1 results].
    destruct (Manager.commitResults _ _ _ _ _ _ _ _) as [n2 commits].
    destruct (Manager.replicate2PC _ _ _ _ _ _ _ _) as [[m' n'] e].
    destruct H as [Hfail Hok]. destruct e as [err|].
    + split; [|done].
      intros Hall Hex. destruct (Hfail Hall Hex) as (e0 & Hh & [= ->] & ->).
      exists e0. by split_and!.
    + destruct (LevelDBStore.Put (ReplicatedStore.store rs) collection key value)
        as [st [err|]]; (split; [|intros _; by apply Hok]);
        intros Hall Hex; by destruct (Hfail Hall Hex) as (e0 & _ & [=] & _).
  - intros v n Hg.
    rewrite (Delete_after_round _ _ _ _ _ _ _ _ Hrole Hm Hne Hg).
    pose proof (round_outcome sch now m pb.OperationType_DELETE collection key [] n
                  Hne) as H.
    destruct (Manager.prepareResults _ _ _ _ _ _ _ _) as [n1 results].
    destruct (Manager.commitResults _ _ _ _ _ _ _ _) as [n2 commits].
    destruct (Manager.replicate2PC _ _ _ _ _ _ _ _) as [[m' n'] e].
    destruct H as [Hfail Hok]. destruct e as [err|].
    + split; [|done].
      intros Hall Hex. destruct (Hfail Hall Hex) as (e0 & Hh & [= ->] & ->).
      exists e0. by split_and!.
    + destruct (LevelDBStore.Delete (ReplicatedStore.store rs) collection key)
        as [st [err|]]; (split; [|intros _; by apply Hok]);
        intros Hall Hex; by destruct (Hfail Hall Hex) as (e0 & _ & [=] & _).
Qed.

End Writes.

Lemma C4_witness :
  (* replica r2 runs on an engine that fails every write *)
  (let '(rs', n', e) :=
     ReplicatedStore.Put in_order 7 Ex.rs_master "default" "a" Ex.one
       (Ex.net Ex.degraded) in
   e = Some (Errorf_w "replication failed"
               (errors_New
                  "2PC commit partially failed: commit to r2 rejected: leveldb: closed")) ∧
   ReplicatedStore.store rs' = Ex.store0) ∧
  (let '(rs', n', e) :=
     ReplicatedStore.Delete (V:=bytes) in_order 7 Ex.rs_master_a "default" "a"
       (Ex.net Ex.degraded) in
   e = Some (Errorf_w "replication failed"
               (errors_New
                  "2PC commit partially failed: commit to r2 rejected: leveldb: closed")) ∧
   ReplicatedStore.store rs' = Ex.store_a).
Proof.
  assert (Hne : Manager.clients Ex.manager0 ≠ []) by discriminate.
  split.
  - destruct (C4_commit_failure_no_local_apply (V:=bytes) in_order 7 Ex.rs_master
                Ex.manager0 "default" "a" eq_refl eq_refl Hne) as [HP _].
    specialize (HP Ex.one Ex.one (Ex.net Ex.degraded) eq_refl).
    vm_compute (Manager.prepareResults _ _ _ _ _ _ _ _) in HP.
    vm_compute (Manager.commitResults _ _ _ _ _ _ _ _) in HP.
    destruct (ReplicatedStore.Put _ _ _ _ _ _ _) as [[rs' n'] e].
    destruct HP as [HP _].
    destruct HP as (e0 & Hh & _ & He & Hs & _).
    + repeat constructor.
    + apply Exists_cons_tl, Exists_cons_hd. eexists. reflexivity.
    + injection Hh as <-. split; [exact He | exact Hs].
  - destruct (C4_commit_failure_no_local_apply (V:=bytes) in_order 7 Ex.rs_master_a
                Ex.manager0 "default" "a" eq_refl eq_refl Hne) as [_ HD].
    specialize (HD Ex.one (Ex.net Ex.degraded) eq_refl).
    vm_compute (Manager.prepareResults _ _ _ _ _ _ _ _) in HD.
    vm_compute (Manager.commitResults _ _ _ _ _ _ _ _) in HD.
    destruct (ReplicatedStore.Delete _ _ _ _ _ _) as [[rs' n'] e].
    destruct HD as [HD _].
    destruct HD as (e0 & Hh & _ & He & Hs & _).
    + repeat constructor.
    + apply Exists_cons_tl, Exists_cons_hd. eexists. reflexivity.
    + injection Hh as <-. split; [exact He | exact Hs].
Defined.

(** ** The coordinator: sequence numbers *)

Section Sequence.
Context {W : Type} `{!Transport W}.
Implicit Types (m : Manager.t) (n : Net W).

Lemma nextSeq_no_wrap m :
  0 ≤ Manager.seq m → Manager.seq m + 1 < 2 ^ 64 →
  Manager.nextSeq m =
    (Manager.mk (Manager.clients m) (Manager.seq m + 1) (Manager.txnID m),
     Manager.seq m + 1).
Proof.
  intros H0 H1. unfold Manager.nextSeq. by rewrite Z.mod_small by lia.
Qed.

(** The counter after [k] acquisitions, wrap included. *)
Lemma acquire_seq (k : nat) m :
  0 ≤ Manager.seq m < 2 ^ 64 →
  Manager.seq (fst (Manager.acquire k m)) =
    (Manager.seq m + Z.of_nat k) mod 2 ^ 64.
Proof.
  revert m. induction k as [|k IH]; intros m Hm.
  - simpl. rewrite Z.add_0_r. by rewrite Z.mod_small.
  - cbn [Manager.acquire]. unfold Manager.nextSeq.
    set (m1 := Manager.mk _ _ _).
    specialize (IH m1).
    destruct (Manager.acquire k m1) as [m2 ss]. cbn [fst] in *.
    rewrite IH by (apply Z.mod_pos_bound; lia).
    subst m1. cbn [Manager.seq].
    rewrite Zplus_mod_idemp_l. f_equal. lia.
Qed.

Lemma acquire_no_wrap (k : nat) m :
  0 ≤ Manager.seq m → Manager.seq m + Z.of_nat k < 2 ^ 64 →
  snd (Manager.acquire k m) = (λ i : nat, Manager.seq m + Z.of_nat i) <$> seq 1 k.
Proof.
  revert m. induction k as [|k IH]; intros m H0 Hk; [done|].
  cbn [Manager.acquire]. rewrite nextSeq_no_wrap by lia.
  set (m1 := Manager.mk _ _ _).
  specialize (IH m1). destruct (Manager.acquire k m1) as [m2 ss].
  cbn [snd fst] in *. rewrite IH by (subst m1; simpl; lia).
  subst m1. cbn [Manager.seq seq]. rewrite fmap_cons. apply (f_equal (cons _)).
  rewrite <- (fmap_S_seq 1 k), <- list_fmap_compose.
  apply list_fmap_ext. intros j i _. simpl. lia.
Qed.

Lemma increasing_from (a : Z) (k s : nat) :
  StronglySorted Z.lt ((λ i : nat, a + Z.of_nat i) <$> seq s k).
Proof.
  revert s. induction k as [|k IH]; intros s; csimpl; constructor; [apply IH|].
  apply Forall_forall. intros x Hx.
  apply list_elem_of_fmap in Hx as (i & -> & Hi).
  apply elem_of_seq in Hi. lia.
Qed.

(** One round with at least one client takes the next number, puts it in
    every prepare it sends, and leaves the client list alone. *)
Lemma round_sequence sch now m op collection key value n :
  Manager.clients m ≠ [] →
  0 ≤ Manager.seq m → Manager.seq m + 1 < 2 ^ 64 →
  let '(m', n', _) := Manager.replicate2PC sch now m op collection key value n in
  Manager.clients m' = Manager.clients m ∧
  Manager.seq m' = Manager.seq m + 1 ∧
  prepare_seqs (drop (length (sent n)) (sent n')) =
    replicate (length (sch PhasePrepare (Manager.clients m))) (Manager.seq m + 1).
Proof.
  intros Hne H0 H1.
  rewrite (replicate2PC_unfold _ _ _ _ _ _ _ _ Hne). cbv zeta.
  unfold Manager.commitResults, Manager.prepareResults.
  cbn [Manager.generateTxnID fst snd].
  rewrite nextSeq_no_wrap by (simpl; lia).
  cbn [fst snd Manager.clients Manager.seq Manager.txnID].
  match goal with |- context [Manager.sendPrepares ?cs ?t ?o ?c ?k ?v ?s n] =>
    pose proof (sendPrepares_sent cs t o c k v s n) as Hs;
    destruct (Manager.sendPrepares cs t o c k v s n) as [n1 results]
  end.
  cbn [fst] in *.
  destruct (forallb Manager.responded_ready results).
  - match goal with |- context [Manager.sendCommits ?cs ?t n1] =>
      pose proof (sendCommits_sent cs t n1) as Hc;
      destruct (Manager.sendCommits cs t n1) as [n2 commits]
    end.
    cbn [fst] in *. split_and!; [done..|].
    rewrite Hc, Hs, <- app_assoc, drop_app_length, prepare_seqs_app.
    rewrite (proj2 (proj2 (addrs_of_prepares _ _))).
    rewrite (proj2 (proj2 (addrs_of_commits _ _))). by rewrite app_nil_r.
  - split_and!; [done..|].
    rewrite sendAborts_sent, Hs, <- app_assoc, drop_app_length, prepare_seqs_app.
    rewrite (proj2 (proj2 (addrs_of_prepares _ _))).
    rewrite (proj2 (proj2 (addrs_of_aborts _ _))). by rewrite app_nil_r.
Qed.

Lemma replicateAll_sequence calls m n :
  Manager.clients m ≠ [] →
  0 ≤ Manager.seq m → Manager.seq m + Z.of_nat (length calls) < 2 ^ 64 →
  let '(m', n', trs) := Manager.replicateAll calls m n in
  length trs = length calls ∧
  ∀ (i : nat) c tr,
    calls !! i = Some c → trs !! i = Some tr →
    prepare_seqs tr =
      replicate (length (Manager.call_sch c PhasePrepare (Manager.clients m)))
                (Manager.seq m + Z.of_nat i + 1).
Proof.
  revert m n. induction calls as [|c calls IH]; intros m n Hne H0 Hk.
  - simpl. split; [done|]. intros i c tr Hc. by rewrite lookup_nil in Hc.
  - cbn [Manager.replicateAll].
    pose proof (round_sequence (Manager.call_sch c) (Manager.call_now c) m
                  (Manager.call_op c) (Manager.call_collection c)
                  (Manager.call_key c) (Manager.call_value c) n Hne H0) as Hr.
    destruct (Manager.replicate2PC _ _ _ _ _ _ _ _) as [[m1 n1] e].
    destruct Hr as (Hcl & Hsq & Htr); [simpl in Hk; lia|].
    specialize (IH m1 n1).
    destruct (Manager.replicateAll calls m1 n1) as [[m2 n2] trs].
    destruct IH as [Hlen Hall].
    { by rewrite Hcl. } { lia. } { simpl in Hk. lia. }
    split; [simpl; by rewrite Hlen|].
    intros [|i] c' tr Hc' Htr'; simpl in Hc', Htr'.
    + injection Hc' as <-. injection Htr' as <-. rewrite Htr.
      f_equal. lia.
    + rewrite (Hall i c' tr Hc' Htr'), Hcl, Hsq. f_equal. lia.
Qed.

(** C8 (amended). On a coordinator with at least one participant whose
    counter is [seq m], as long as the [uint64] counter does not wrap
    ([seq m] plus the number of calls stays below 2^64): the numbers handed
    out by successive [nextSeq] calls are [seq m + 1], [seq m + 2], ...,
    hence strictly increasing and pairwise distinct; and in a run of
    Replicate calls every prepare request of the i-th call carries the i-th
    of these numbers, one request per scheduled client. *)
Theorem C8_sequence_increasing_until_wrap (calls : list Manager.Call) m n :
  Manager.clients m ≠ [] →
  0 ≤ Manager.seq m →
  Manager.seq m + Z.of_nat (length calls) < 2 ^ 64 →
  let handed_out := snd (Manager.acquire (length calls) m) in
  handed_out = (λ i : nat, Manager.seq m + Z.of_nat i) <$> seq 1 (length calls) ∧
  StronglySorted Z.lt handed_out ∧
  NoDup handed_out ∧
  let '(m', n', trs) := Manager.replicateAll calls m n in
  length trs = length calls ∧
  ∀ (i : nat) c tr,
    calls !! i = Some c → trs !! i = Some tr →
    ∃ s, handed_out !! i = Some s ∧
         prepare_seqs tr =
           replicate (length (Manager.call_sch c PhasePrepare (Manager.clients m))) s.
Proof.
  intros Hne H0 Hk. cbv zeta.
  rewrite (acquire_no_wrap _ _ H0 Hk).
  pose proof (increasing_from (Manager.seq m) (length calls) 1) as Hsorted.
  split_and!; [done|done| |].
  - clear -Hsorted.
    induction Hsorted as [|x l Hs IH Hx]; constructor; [|done].
    intros Hin. eapply Forall_forall in Hx; [|exact Hin]. lia.
  - pose proof (replicateAll_sequence calls m n Hne H0 Hk) as Hall.
    destruct (Manager.replicateAll calls m n) as [[m' n'] trs].
    destruct Hall as [Hlen Hall]. split; [done|].
    intros i c tr Hc Htr.
    assert (Hi : (i < length calls)%nat) by (by eapply lookup_lt_Some).
    exists (Manager.seq m + Z.of_nat i + 1). split.
    + rewrite list_lookup_fmap, lookup_seq_lt by done. simpl. f_equal. lia.
    + by apply Hall.
Qed.

End Sequence.

(** Every value of the counter is reached from a new coordinator; the last
    one before the wrap after 2^64 - 1 acquisitions. *)
Lemma counter_reaches (v : Z) :
  0 ≤ v < 2 ^ 64 →
  Manager.seq (fst (Manager.acquire (Z.to_nat v) (Manager.mk [Ex.r1; Ex.r2] 0 0))) = v.
Proof.
  intros Hv. rewrite acquire_seq by (simpl; lia).
  rewrite Z2Nat.id by lia. simpl. by rewrite Z.mod_small.
Qed.

Lemma C8_witness :
  let calls :=
    [Manager.mkCall in_order 7 pb.OperationType_PUT "default" "a" Ex.one;
     Manager.mkCall Ex.reversed 8 pb.OperationType_DELETE "default" "a" []] in
  let handed_out := snd (Manager.acquire 2 Ex.manager0) in
  handed_out = [1; 2] ∧
  StronglySorted Z.lt handed_out ∧
  NoDup handed_out ∧
  let '(m', n', trs) :=
    Manager.replicateAll calls Ex.manager0 (Ex.net Ex.healthy) in
  length trs = 2%nat ∧
  ∀ (i : nat) c tr,
    calls !! i = Some c → trs !! i = Some tr →
    ∃ s, handed_out !! i = Some s ∧
         prepare_seqs tr =
           replicate
             (length (Manager.call_sch c PhasePrepare (Manager.clients Ex.manager0)))
             s.
Proof.
  assert (Hne : Manager.clients Ex.manager0 ≠ []) by discriminate.
  assert (H0 : 0 ≤ Manager.seq Ex.manager0) by (simpl; lia).
  exact (C8_sequence_increasing_until_wrap
           [Manager.mkCall in_order 7 pb.OperationType_PUT "default" "a" Ex.one;
            Manager.mkCall Ex.reversed 8 pb.OperationType_DELETE "default" "a" []]
           Ex.manager0 (Ex.net Ex.healthy) Hne H0 eq_refl).
Defined.

(** The same run, request by request. *)
Example two_rounds_on_the_wire :
  let calls :=
    [Manager.mkCall in_order 7 pb.OperationType_PUT "default" "a" Ex.one;
     Manager.mkCall Ex.reversed 8 pb.OperationType_DELETE "default" "a" []] in
  let '(m', n', trs) :=
    Manager.replicateAll calls Ex.manager0 (Ex.net Ex.healthy) in
  Manager.seq m' = 2 ∧
  prepare_seqs <$> trs = [[1; 1]; [2; 2]] ∧
  prepare_addrs <$> trs = [["r1"; "r2"]; ["r2"; "r1"]] ∧
  commit_addrs <$> trs = [["r1"; "r2"]; ["r2"; "r1"]] ∧
  abort_addrs <$> trs = [[]; []].
Proof. vm_compute. done. Qed.

(** C8, counterexample. A coordinator whose counter stands at 2^64 - 2
    hands out 2^64 - 1 and then 0, and its next two rounds carry these
    numbers in their prepares; a coordinator without participants hands
    out nothing and sends nothing. *)
Lemma C8_counterexample :
  (let m := Manager.mk [Ex.r1; Ex.r2] (2 ^ 64 - 2) 0 in
   let calls :=
     [Manager.mkCall in_order 7 pb.OperationType_PUT "default" "a" Ex.one;
      Manager.mkCall in_order 8 pb.OperationType_PUT "default" "a" Ex.two] in
   snd (Manager.acquire 2 m) = [18446744073709551615; 0] ∧
   ¬ StronglySorted Z.lt (snd (Manager.acquire 2 m)) ∧
   prepare_seqs <$> snd (Manager.replicateAll calls m (Ex.net Ex.healthy))
     = [[18446744073709551615; 18446744073709551615]; [0; 0]]) ∧
  (let m := Manager.mk [] 5 0 in
   Manager.replicate2PC in_order 7 m pb.OperationType_PUT "default" "a" Ex.one
     (Ex.net Ex.healthy) = (m, Ex.net Ex.healthy, None)).
Proof.
  cbv zeta. split_and!; try (vm_compute; reflexivity).
  intros H. vm_compute in H.
  apply StronglySorted_inv in H as [_ H].
  apply Forall_cons in H as [H _]. discriminate H.
Qed.

(** ** Whole rounds on a two-replica cluster *)

(** Both replicas live: the write is on every node and nothing stays
    staged. *)
Example round_on_healthy_cluster :
  let '(rs', n', e) :=
    ReplicatedStore.Put in_order 7 Ex.rs_master "default" "a" Ex.one
      (Ex.net Ex.healthy) in
  e = None ∧
  Ex.local_value rs' "default:a" = Some Ex.one ∧
  Ex.peer_value (world n') "r1" "default:a" = Some Ex.one ∧
  Ex.peer_value (world n') "r2" "default:a" = Some Ex.one ∧
  Ex.peer_staged (world n') "r1" = [] ∧
  Ex.peer_staged (world n') "r2" = [] ∧
  ReplicatedStore.Get rs' "default" "a" = Ok Ex.one.
Proof. vm_compute. done. Qed.

(** One replica refuses, or cannot be reached: the write is on no node and
    the replica that had staged it has dropped it. *)
Example round_with_refusal :
  let '(rs', n', e) :=
    ReplicatedStore.Put in_order 7 Ex.rs_master "default" "x" Ex.one
      (Ex.net Ex.refusing) in
  e = Some (Errorf_w "replication failed"
              (errors_New "2PC prepare rejected by one or more slaves")) ∧
  Ex.local_value rs' "default:x" = None ∧
  Ex.peer_value (world n') "r1" "default:x" = None ∧
  Ex.peer_staged (world n') "r1" = [] ∧
  commit_addrs (sent n') = [] ∧
  abort_addrs (sent n') = ["r1"].
Proof. vm_compute. done. Qed.

Example round_with_unreachable_replica :
  let '(rs', n', e) :=
    ReplicatedStore.Put in_order 7 Ex.rs_master "default" "y" Ex.two
      (Ex.net Ex.partitioned) in
  e = Some (Errorf_w "replication failed"
              (errors_New
                 "2PC prepare failed: prepare to r2 failed: rpc error: code = Unavailable")) ∧
  Ex.local_value rs' "default:y" = None ∧
  Ex.peer_value (world n') "r1" "default:y" = None ∧
  Ex.peer_staged (world n') "r1" = [] ∧
  commit_addrs (sent n') = [] ∧
  abort_addrs (sent n') = ["r1"].
Proof. vm_compute. done. Qed.

(** A Put of the empty key on the master is replicated: both replicas
    stage it, both refuse it at commit, and both keep it staged. *)
Example round_with_empty_key :
  let '(rs', n', e) :=
    ReplicatedStore.Put in_order 7 Ex.rs_master "default" "" Ex.one
      (Ex.net Ex.healthy) in
  e = Some (Errorf_w "replication failed"
              (errors_New
                 "2PC commit partially failed: commit to r1 rejected: invalid key")) ∧
  Ex.local_value rs' "default:" = None ∧
  Ex.peer_staged (world n') "r1" = ["txn-7-1"] ∧
  Ex.peer_staged (world n') "r2" = ["txn-7-1"] ∧
  abort_addrs (sent n') = [].
Proof. vm_compute. done. Qed.

(** * Further properties *)

(** ** The participant as a state machine *)

Section ParticipantMachine.
Context {DB : Type} `{!Engine DB}.
Implicit Types (s : Server.t DB) (txn : PendingTransaction.t).

Lemma Server_eta s :
  Server.mk (Server.storage s) (Server.seq s) (Server.pending s) = s.
Proof. by destruct s. Qed.

(** X1. Abort always answers success=true, leaves the id unstaged, and
    leaves every other entry, the engine and the sequence field alone; for
    an id that is not staged it changes nothing at all. *)
Theorem X1_abort_unconditional s req :
  let t := pb.AbortRequest.TransactionId req in
  let '(s', resp) := Server.Abort s req in
  resp = pb.AbortResponse.mk true ∧
  Server.pending s' !! t = None ∧
  (∀ t', t' ≠ t → Server.pending s' !! t' = Server.pending s !! t') ∧
  Server.storage s' = Server.storage s ∧
  Server.seq s' = Server.seq s ∧
  (Server.pending s !! t = None → s' = s).
Proof.
  simpl. split_and!; try done.
  - apply lookup_delete_eq.
  - intros t' Hne. by rewrite lookup_delete_ne.
  - intros Hn. rewrite delete_id by done. apply Server_eta.
Qed.

(** X2. A Prepare under an id that is not staged, followed by the Abort
    of that id, gives back the participant exactly as it was. *)
Theorem X2_prepare_abort_restores s req :
  Server.pending s !! pb.PrepareRequest.TransactionId req = None →
  fst (Server.Abort (fst (Server.Prepare s req))
         (pb.AbortRequest.mk (pb.PrepareRequest.TransactionId req))) = s.
Proof.
  intros Hn. rewrite (Prepare_fresh _ _ Hn). unfold Server.Abort. simpl.
  rewrite delete_insert_eq, delete_id by done. apply Server_eta.
Qed.

(** X3. A staged operation is applied at most once: after a Commit that
    answered success=true, a second Commit of the same id answers
    success=false with "transaction not found" and changes nothing. *)
Theorem X3_commit_once s req :
  let '(s1, r1) := Server.Commit s req in
  pb.CommitResponse.Success r1 = true →
  Server.Commit s1 req = (s1, pb.CommitResponse.mk false "transaction not found").
Proof.
  unfold Server.Commit at 1.
  destruct (Server.pending s !! pb.CommitRequest.TransactionId req)
    as [txn|] eqn:E; [|done].
  destruct (Server.apply (Server.storage s) txn) as [st [e|]]; [done|].
  intros _. apply Commit_unknown. apply lookup_delete_eq.
Qed.

Lemma Commit_leaves_others s req t' :
  t' ≠ pb.CommitRequest.TransactionId req →
  Server.pending (fst (Server.Commit s req)) !! t' = Server.pending s !! t'.
Proof.
  intros Hne. unfold Server.Commit.
  destruct (Server.pending s !! pb.CommitRequest.TransactionId req)
    as [txn|] eqn:E; [|done].
  destruct (Server.apply (Server.storage s) txn) as [st [e|]]; simpl; [done|].
  by rewrite lookup_delete_ne.
Qed.

End ParticipantMachine.

Lemma X1_witness :
  Server.Abort Ex.server0 (pb.AbortRequest.mk "t9")
    = (Ex.server0, pb.AbortResponse.mk true).
Proof.
  pose proof (X1_abort_unconditional Ex.server0 (pb.AbortRequest.mk "t9")) as H.
  cbv zeta in H.
  destruct (Server.Abort Ex.server0 (pb.AbortRequest.mk "t9")) as [s' resp].
  destruct H as (-> & _ & _ & _ & _ & H). by rewrite (H eq_refl).
Defined.

Lemma X2_witness :
  fst (Server.Abort
         (fst (Server.Prepare Ex.server0
                 (Ex.prepare "t1" pb.OperationType_PUT "a" Ex.one 1)))
         (pb.AbortRequest.mk "t1")) = Ex.server0.
Proof.
  exact (X2_prepare_abort_restores Ex.server0
           (Ex.prepare "t1" pb.OperationType_PUT "a" Ex.one 1) eq_refl).
Defined.

Lemma X3_witness :
  Server.Commit (fst (Server.Commit Ex.server1 (pb.CommitRequest.mk "t1")))
    (pb.CommitRequest.mk "t1")
  = (fst (Server.Commit Ex.server1 (pb.CommitRequest.mk "t1")),
     pb.CommitResponse.mk false "transaction not found").
Proof.
  pose proof (X3_commit_once Ex.server1 (pb.CommitRequest.mk "t1")) as H.
  destruct (Server.Commit Ex.server1 (pb.CommitRequest.mk "t1")) as [s1 r1] eqn:E.
  apply H. by injection E as _ <-.
Defined.

(** ** Composite keys *)

Lemma append_cons (x : ascii) (a b : string) :
  String x a +:+ b = String x (a +:+ b).
Proof. reflexivity. Qed.

Lemma append_nil_l (b : string) : "" +:+ b = b.
Proof. reflexivity. Qed.

Lemma append_assoc_colon (a b c : string) :
  (a +:+ b) +:+ c = a +:+ (b +:+ c).
Proof.
  induction a as [|x a IH]; [done|]. rewrite !append_cons. f_equal. apply IH.
Qed.

Lemma cut_colon_makeKey (collection key : string) :
  cut_colon collection = None →
  cut_colon (LevelDBStore.makeKey collection key) = Some (collection, key).
Proof.
  unfold LevelDBStore.makeKey.
  induction collection as [|a c IH].
  - rewrite append_nil_l, append_cons, append_nil_l. done.
  - rewrite append_cons. cbn [cut_colon].
    destruct (Ascii.eqb a ":") eqn:Ea; [done|].
    destruct (cut_colon c) as [[b r]|] eqn:Ec; [done|].
    intros _. by rewrite IH.
Qed.

Lemma slice_from_makeKey (collection key : string) :
  slice_from (String.length collection + 1)
    (LevelDBStore.makeKey collection key) = key.
Proof.
  unfold LevelDBStore.makeKey. induction collection as [|a c IH].
  - done.
  - rewrite append_cons. cbn [String.length Nat.add slice_from]. apply IH.
Qed.

Lemma prefix_append (p s : string) :
  String.prefix p s = true ↔ ∃ r, s = p +:+ r.
Proof.
  revert s. induction p as [|a p IH]; intros s.
  - split; [|by destruct s]. intros _. by exists s.
  - destruct s as [|b s]; cbn [String.prefix].
    + split; [done|]. intros [r H]. rewrite append_cons in H. discriminate H.
    + destruct (Ascii.ascii_dec a b) as [<-|Hne].
      * rewrite IH. split; intros [r H]; exists r.
        -- rewrite append_cons. by rewrite H.
        -- rewrite append_cons in H. by injection H.
      * split; [done|]. intros [r H]. rewrite append_cons in H.
        injection H as H _. by destruct Hne.
Qed.

Lemma prefix_makeKey (collection dbKey : string) :
  String.prefix (collection +:+ ":") dbKey = true ↔
  ∃ key, dbKey = LevelDBStore.makeKey collection key.
Proof.
  unfold LevelDBStore.makeKey. rewrite prefix_append.
  split; intros [r H]; exists r.
  - by rewrite H, append_assoc_colon.
  - by rewrite append_assoc_colon.
Qed.

(** X5. The composite key tells collections apart as long as their names
    hold no colon: two such collections never share a composite key, and
    within one the key is recovered from it.  With a colon in the name it
    does not: key [k1:k2] of collection [c] and key [k2] of collection
    [c:k1] are stored under the same composite key. *)
Theorem X5_makeKey_separates (c1 c2 k1 k2 : string) :
  (cut_colon c1 = None → cut_colon c2 = None →
   LevelDBStore.makeKey c1 k1 = LevelDBStore.makeKey c2 k2 →
   c1 = c2 ∧ k1 = k2) ∧
  LevelDBStore.makeKey c1 (k1 +:+ ":" +:+ k2)
    = LevelDBStore.makeKey (c1 +:+ ":" +:+ k1) k2.
Proof.
  split.
  - intros H1 H2 Heq.
    pose proof (cut_colon_makeKey c1 k1 H1) as E1.
    pose proof (cut_colon_makeKey c2 k2 H2) as E2.
    rewrite Heq, E2 in E1. by injection E1 as -> ->.
  - unfold LevelDBStore.makeKey. rewrite append_assoc_colon. by rewrite append_cons.
Qed.

Lemma X5_witness : "users" = "users" ∧ "a:b" = "a:b".
Proof.
  exact (proj1 (X5_makeKey_separates "users" "users" "a:b" "a:b")
           eq_refl eq_refl eq_refl).
Defined.

(** ** The adapter over an engine that keeps its promises *)

(** The in-memory engine is lawful. *)
#[global] Instance MemDB_Lawful : LawfulEngine MemDB.
Proof.
  split.
  - intros d d' k k' v. cbn. unfold MemDB_Put, MemDB_Get.
    destruct (fault d) as [msg|] eqn:Ef; [done|]. intros [= <-]. cbn.
    destruct (decide (k' = k)) as [->|Hne].
    + by rewrite lookup_insert_eq.
    + by rewrite lookup_insert_ne.
  - intros d d' k k'. cbn. unfold MemDB_Delete, MemDB_Get.
    destruct (fault d) as [msg|] eqn:Ef; [done|]. intros [= <-]. cbn.
    destruct (decide (k' = k)) as [->|Hne].
    + by rewrite lookup_delete_eq.
    + by rewrite lookup_delete_ne.
  - intros d entries. cbn. unfold MemDB_Iterate, MemDB_Get.
    destruct (fault d) as [msg|] eqn:Ef; [done|]. intros [= <-]. split.
    + apply NoDup_fst_map_to_list.
    + intros k v. rewrite elem_of_map_to_list.
      destruct (contents d !! k) as [b|]; split; congruence.
Qed.

Section AdapterLaws.
Context {DB V : Type} `{!Engine DB} `{!Iterable DB} `{!Json V} `{!LawfulEngine DB}.
Implicit Types (s : LevelDBStore.t DB).

Lemma Get_same_lookup s s' collection key :
  db_Get (LevelDBStore.db s') (LevelDBStore.makeKey collection key)
    = db_Get (LevelDBStore.db s) (LevelDBStore.makeKey collection key) →
  LevelDBStore.Get (V:=V) s' collection key = LevelDBStore.Get s collection key.
Proof. intros H. unfold LevelDBStore.Get. by rewrite H. Qed.

Lemma Get_stored s collection key data :
  key ≠ "" →
  db_Get (LevelDBStore.db s) (LevelDBStore.makeKey collection key) = Ok data →
  LevelDBStore.Get (V:=V) s collection key =
    match json_Unmarshal data with
    | Ok v => Ok v
    | Err e => Err (Errorf_w "failed to deserialize value" e)
    end.
Proof.
  intros Hk H. unfold LevelDBStore.Get. rewrite bool_decide_false by done.
  rewrite H. by destruct (json_Unmarshal data).
Qed.

(** X6. A Put that returns no error was given a non-empty key and a value
    that serializes; afterwards Get of that collection and key returns what
    the stored text parses to, and Get under every other composite key
    answers as before. *)
Theorem X6_put_then_get s s' collection key (value : V) :
  LevelDBStore.Put s collection key value = (s', None) →
  key ≠ "" ∧
  ∃ data, json_Marshal value = Ok data ∧
    LevelDBStore.Get (V:=V) s' collection key =
      match json_Unmarshal data with
      | Ok v => Ok v
      | Err e => Err (Errorf_w "failed to deserialize value" e)
      end ∧
    ∀ c' k', LevelDBStore.makeKey c' k' ≠ LevelDBStore.makeKey collection key →
             LevelDBStore.Get (V:=V) s' c' k' = LevelDBStore.Get s c' k'.
Proof.
  unfold LevelDBStore.Put. case_bool_decide as Hk; [done|].
  destruct (json_Marshal value) as [data|e]; [|done].
  destruct (db_Put _ _ _) as [d [e|]] eqn:Hput; [done|].
  intros [= <-]. split; [done|]. exists data. split; [done|]. split.
  - apply Get_stored; [done|]. cbn.
    rewrite (engine_get_put _ _ _ _ _ Hput). by rewrite decide_True.
  - intros c' k' Hne. apply Get_same_lookup. cbn.
    rewrite (engine_get_put _ _ _ _ _ Hput). by rewrite decide_False.
Qed.

(** X7. A Delete that returns no error was given a non-empty key that the
    engine held; afterwards Get of that collection and key answers
    ErrKeyNotFound, a second Delete answers ErrKeyNotFound and changes
    nothing, and Get under every other composite key answers as before. *)
Theorem X7_delete_then_get s s' collection key :
  LevelDBStore.Delete s collection key = (s', None) →
  key ≠ "" ∧
  (∃ data, db_Get (LevelDBStore.db s) (LevelDBStore.makeKey collection key)
             = Ok data) ∧
  LevelDBStore.Get (V:=V) s' collection key = Err ErrKeyNotFound ∧
  LevelDBStore.Delete s' collection key = (s', Some ErrKeyNotFound) ∧
  ∀ c' k', LevelDBStore.makeKey c' k' ≠ LevelDBStore.makeKey collection key →
           LevelDBStore.Get (V:=V) s' c' k' = LevelDBStore.Get s c' k'.
Proof.
  unfold LevelDBStore.Delete at 1. case_bool_decide as Hk; [done|].
  destruct (db_Get _ _) as [data|e] eqn:Hget; [|by case_bool_decide].
  destruct (db_Delete _ _) as [d [e|]] eqn:Hdel; [done|].
  intros [= <-]. split; [done|]. split; [by exists data|].
  assert (Hgone : db_Get d (LevelDBStore.makeKey collection key)
                  = Err leveldb_ErrNotFound).
  { rewrite (engine_get_delete _ _ _ _ Hdel). by rewrite decide_True. }
  split_and!.
  - unfold LevelDBStore.Get. rewrite bool_decide_false by done. cbn.
    rewrite Hgone. by rewrite bool_decide_true.
  - unfold LevelDBStore.Delete. rewrite bool_decide_false by done. cbn.
    rewrite Hgone. by rewrite bool_decide_true.
  - intros c' k' Hne. apply Get_same_lookup. cbn.
    rewrite (engine_get_delete _ _ _ _ Hdel). by rewrite decide_False.
Qed.

(** X8. What a participant commits is what its readers get: after a
    Commit that answered success=true for a staged PUT, Get of the staged
    collection and key on the participant's store returns what the staged
    bytes parse to; for a staged DELETE it answers ErrKeyNotFound.  In both
    cases the staged key was not empty. *)
Theorem X8_commit_then_get (srv : Server.t DB) req txn :
  Server.pending srv !! pb.CommitRequest.TransactionId req = Some txn →
  let '(srv', resp) := Server.Commit srv req in
  pb.CommitResponse.Success resp = true →
  (PendingTransaction.Operation txn = pb.OperationType_PUT →
   PendingTransaction.Key txn ≠ "" ∧
   LevelDBStore.Get (V:=V) (Server.storage srv')
     (PendingTransaction.Collection txn) (PendingTransaction.Key txn) =
     match json_Unmarshal (PendingTransaction.Value txn) with
     | Ok v => Ok v
     | Err e => Err (Errorf_w "failed to deserialize value" e)
     end) ∧
  (PendingTransaction.Operation txn = pb.OperationType_DELETE →
   PendingTransaction.Key txn ≠ "" ∧
   LevelDBStore.Get (V:=V) (Server.storage srv')
     (PendingTransaction.Collection txn) (PendingTransaction.Key txn)
     = Err ErrKeyNotFound).
Proof.
  intros Hp. unfold Server.Commit. rewrite Hp.
  destruct (Server.apply (Server.storage srv) txn) as [st [e|]] eqn:Ha; [done|].
  intros _. cbn [Server.storage]. unfold Server.apply in Ha. split.
  - intros Hop. rewrite Hop, bool_decide_true in Ha by done.
    unfold LevelDBStore.PutDirect in Ha. case_bool_decide as Hk; [done|].
    destruct (db_Put _ _ _) as [d o] eqn:Hput. injection Ha as <- ->.
    split; [done|]. apply Get_stored; [done|]. cbn.
    rewrite (engine_get_put _ _ _ _ _ Hput). by rewrite decide_True.
  - intros Hop. rewrite Hop in Ha.
    rewrite bool_decide_false, bool_decide_true in Ha by done.
    unfold LevelDBStore.DeleteDirect in Ha. case_bool_decide as Hk; [done|].
    destruct (db_Delete _ _) as [d o] eqn:Hdel. injection Ha as <- ->.
    split; [done|].
    unfold LevelDBStore.Get. rewrite bool_decide_false by done. cbn.
    rewrite (engine_get_delete _ _ _ _ Hdel), decide_True by done.
    by rewrite bool_decide_true.
Qed.

End AdapterLaws.

(** ** Listing and counting *)

Section Listing.
Context {DB V : Type} `{!Engine DB} `{!Iterable DB} `{!Json V} `{!LawfulEngine DB}.
Implicit Types (s : LevelDBStore.t DB).

Lemma makeKey_inj_key collection k1 k2 :
  LevelDBStore.makeKey collection k1 = LevelDBStore.makeKey collection k2 →
  k1 = k2.
Proof.
  intros H. rewrite <- (slice_from_makeKey collection k1), H.
  apply slice_from_makeKey.
Qed.

(** A clean prefix iteration lists, once each, the stored entries whose
    composite key belongs to the collection prefix. *)
Lemma IteratePrefix_entries (d : DB) collection entries :
  db_IteratePrefix d (collection +:+ ":") = (entries, None) →
  NoDup entries.*1 ∧
  Forall (λ kv, ∃ k, kv.1 = LevelDBStore.makeKey collection k) entries ∧
  ∀ k b, (LevelDBStore.makeKey collection k, b) ∈ entries ↔
         db_Get d (LevelDBStore.makeKey collection k) = Ok b.
Proof.
  unfold db_IteratePrefix.
  destruct (db_Iterate d) as [es err] eqn:Hit. intros [= <- ->].
  destruct (engine_iterate _ _ Hit) as [Hnd Hin]. split_and!.
  - apply (sublist_NoDup _ es.*1); [exact Hnd|apply fmap_sublist, sublist_filter].
  - apply Forall_forall. intros kv Hkv.
    apply list_elem_of_filter in Hkv as [Hp _]. by apply prefix_makeKey.
  - intros k b. rewrite list_elem_of_filter, Hin. cbn.
    split; [by intros [_ ?]|]. intros Hg. split; [|done].
    apply prefix_makeKey. by exists k.
Qed.

Lemma List_fold_lookup collection (entries : list (string * bytes)) :
  Forall (λ kv, ∃ k, kv.1 = LevelDBStore.makeKey collection k) entries →
  NoDup entries.*1 →
  ∀ k (v : V),
    foldl (LevelDBStore.List_step collection) ∅ entries !! k = Some v ↔
    ∃ b, (LevelDBStore.makeKey collection k, b) ∈ entries ∧
         json_Unmarshal b = Ok v.
Proof.
  induction entries as [|[key b] es IH] using rev_ind; intros Hpre Hnd k v.
  - simpl. rewrite lookup_empty. split; [done|].
    intros (b & Hin & _). by apply elem_of_nil in Hin.
  - apply Forall_app in Hpre as [Hpre He].
    apply Forall_singleton in He as [k0 Hk0]. simpl in Hk0. subst key.
    rewrite fmap_app in Hnd. apply NoDup_app in Hnd as (Hnd & Hfresh & _).
    specialize (IH Hpre Hnd).
    assert (Hnew : ∀ b', (LevelDBStore.makeKey collection k0, b') ∉ es).
    { intros b' Hin. apply (Hfresh (LevelDBStore.makeKey collection k0)).
      - apply list_elem_of_fmap. by exists (LevelDBStore.makeKey collection k0, b').
      - simpl. apply list_elem_of_singleton. done. }
    rewrite foldl_snoc. unfold LevelDBStore.List_step at 1. cbn [fst snd].
    rewrite slice_from_makeKey.
    destruct (json_Unmarshal b) as [val|e] eqn:Hj.
    + destruct (decide (k = k0)) as [->|Hne].
      * rewrite lookup_insert_eq. split.
        -- intros [= <-]. exists b. split; [|done].
           apply elem_of_app. right. by apply list_elem_of_singleton.
        -- intros (b' & Hin & Hj'). apply elem_of_app in Hin as [Hin|Hin].
           ++ by apply Hnew in Hin.
           ++ apply list_elem_of_singleton in Hin. injection Hin as ->. congruence.
      * rewrite lookup_insert_ne by done. rewrite IH. split.
        -- intros (b' & Hin & Hj'). exists b'. split; [|done].
           apply elem_of_app. by left.
        -- intros (b' & Hin & Hj'). exists b'. split; [|done].
           apply elem_of_app in Hin as [Hin|Hin]; [done|].
           apply list_elem_of_singleton in Hin. injection Hin as Hk _.
           apply makeKey_inj_key in Hk. done.
    + rewrite IH. split.
      * intros (b' & Hin & Hj'). exists b'. split; [|done].
        apply elem_of_app. by left.
      * intros (b' & Hin & Hj'). exists b'. split; [|done].
        apply elem_of_app in Hin as [Hin|Hin]; [done|].
        apply list_elem_of_singleton in Hin. injection Hin as _ ->. congruence.
Qed.




Lemma List_lookup s collection (m : gmap string V) :
  LevelDBStore.List s collection = Ok m →
  ∀ key v,
    m !! key = Some v ↔
    ∃ data, db_Get (LevelDBStore.db s) (LevelDBStore.makeKey collection key)
              = Ok data ∧ json_Unmarshal data = Ok v.
Proof.
  unfold LevelDBStore.List.
  destruct (db_IteratePrefix _ _) as [entries [e|]] eqn:Hit; [done|].
  intros [= <-].
  destruct (IteratePrefix_entries _ _ _ Hit) as (Hnd & Hpre & Hin).
  intros key v. rewrite (List_fold_lookup collection entries Hpre Hnd).
  split; intros (b & Hb & Hj); exists b; (split; [by apply Hin|done]).
Qed.

(** X9. A List that returns no error holds, under each key, what the bytes
    stored under the composite key of that collection and key parse to, and
    holds no key whose bytes are missing or do not parse.  So for a
    non-empty key List and Get agree; under the empty key List shows what
    Get refuses to read. *)
Theorem X9_list_agrees_with_get s collection (m : gmap string V) :
  LevelDBStore.List s collection = Ok m →
  (∀ key v,
     m !! key = Some v ↔
     ∃ data, db_Get (LevelDBStore.db s) (LevelDBStore.makeKey collection key)
               = Ok data ∧ json_Unmarshal data = Ok v) ∧
  (∀ key v, key ≠ "" →
     m !! key = Some v ↔ LevelDBStore.Get s collection key = Ok v).
Proof.
  intros Hl. pose proof (List_lookup _ _ _ Hl) as H1.
  split; [exact H1|].
  intros key v Hk. rewrite H1. unfold LevelDBStore.Get.
  rewrite bool_decide_false by done. cbn zeta. split.
  - intros (data & -> & ->). done.
  - destruct (db_Get _ _) as [data|e]; [|by case_bool_decide].
    destruct (json_Unmarshal data) as [v'|e] eqn:Hj; [|done].
    intros [= <-]. by exists data.
Qed.


Lemma cut_colon_Some (dbKey before after : string) :
  cut_colon dbKey = Some (before, after) →
  dbKey = LevelDBStore.makeKey before after ∧ cut_colon before = None.
Proof.
  unfold LevelDBStore.makeKey. revert before.
  induction dbKey as [|a k IH]; intros before; cbn [cut_colon]; [done|].
  destruct (Ascii.eqb a ":") eqn:Ea.
  - apply Ascii.eqb_eq in Ea as ->. intros [= <- <-]. done.
  - destruct (cut_colon k) as [[b r]|]; [|done]. intros [= <- <-].
    destruct (IH b eq_refl) as [-> Hb]. split.
    + by rewrite append_cons.
    + cbn [cut_colon]. by rewrite Ea, Hb.
Qed.

Lemma ListCollections_fold (entries : list (string * bytes)) (c : string) :
  c ∈ foldl (λ (collections : gset string) (entry : string * bytes),
               match cut_colon entry.1 with
               | Some (before, _) => {[ before ]} ∪ collections
               | None => collections
               end) ∅ entries ↔
  ∃ dbKey data after, (dbKey, data) ∈ entries ∧ cut_colon dbKey = Some (c, after).
Proof.
  induction entries as [|[key b] es IH] using rev_ind.
  - simpl. split; [set_solver|]. intros (k & d & a & Hin & _).
    by apply elem_of_nil in Hin.
  - rewrite foldl_snoc. cbn [fst].
    destruct (cut_colon key) as [[before after]|] eqn:Hc.
    + rewrite elem_of_union, elem_of_singleton, IH. split.
      * intros [->|(k & d & a & Hin & Hk)].
        -- exists key, b, after. split; [|done].
           apply elem_of_app. right. by apply list_elem_of_singleton.
        -- exists k, d, a. split; [|done]. apply elem_of_app. by left.
      * intros (k & d & a & Hin & Hk). apply elem_of_app in Hin as [Hin|Hin].
        -- right. by exists k, d, a.
        -- apply list_elem_of_singleton in Hin. injection Hin as -> ->.
           left. congruence.
    + rewrite IH. split.
      * intros (k & d & a & Hin & Hk). exists k, d, a. split; [|done].
        apply elem_of_app. by left.
      * intros (k & d & a & Hin & Hk). apply elem_of_app in Hin as [Hin|Hin].
        -- by exists k, d, a.
        -- apply list_elem_of_singleton in Hin. injection Hin as -> ->.
           congruence.
Qed.

Lemma ListCollections_members s (cs : gset string) :
  LevelDBStore.ListCollections s = Ok cs →
  ∀ c, c ∈ cs ↔
       ∃ dbKey data after,
         db_Get (LevelDBStore.db s) dbKey = Ok data ∧
         cut_colon dbKey = Some (c, after).
Proof.
  unfold LevelDBStore.ListCollections.
  destruct (db_Iterate _) as [entries [e|]] eqn:Hit; [done|].
  intros [= <-]. destruct (engine_iterate _ _ Hit) as [_ Hin].
  intros c. rewrite ListCollections_fold.
  split; intros (k & d & a & Hk & Hc); exists k, d, a;
    (split; [by apply Hin|done]).
Qed.

Lemma ListCollections_plain s (cs : gset string) c :
  LevelDBStore.ListCollections s = Ok cs →
  cut_colon c = None →
  c ∈ cs ↔
  ∃ key data,
    db_Get (LevelDBStore.db s) (LevelDBStore.makeKey c key) = Ok data.
Proof.
  intros Hl Hc. rewrite (ListCollections_members _ _ Hl). split.
  - intros (k & d & a & Hg & Hk).
    apply cut_colon_Some in Hk as [-> _]. by exists a, d.
  - intros (key & d & Hg). exists (LevelDBStore.makeKey c key), d, key.
    split; [done|]. by apply cut_colon_makeKey.
Qed.

(** X11. A ListCollections that returns no error holds exactly the parts
    before the first colon of the stored composite keys.  So a name without
    a colon is listed exactly when some entry is stored under it, a name
    with a colon is never listed, and a stored key without any colon
    contributes nothing. *)
Theorem X11_list_collections s (cs : gset string) :
  LevelDBStore.ListCollections s = Ok cs →
  (∀ c, c ∈ cs ↔
        ∃ dbKey data after,
          db_Get (LevelDBStore.db s) dbKey = Ok data ∧
          cut_colon dbKey = Some (c, after)) ∧
  (∀ c, cut_colon c = None →
        c ∈ cs ↔
        ∃ key data,
          db_Get (LevelDBStore.db s) (LevelDBStore.makeKey c key) = Ok data) ∧
  (∀ c, c ∈ cs → cut_colon c = None).
Proof.
  intros Hl. split_and!.
  - by apply ListCollections_members.
  - intros c Hc. by apply ListCollections_plain.
  - intros c Hin'.
    apply (ListCollections_members _ _ Hl) in Hin' as (k & d & a & _ & Hk).
    by apply cut_colon_Some in Hk as [_ ?].
Qed.

(** X12. After a Put that returned no error, a List of that collection
    that returns no error holds the key exactly when the stored text
    parses, then with the parsed value; a Count that returns no error is at
    least one; and a ListCollections that returns no error holds the
    collection if its name has no colon. *)
Theorem X12_put_is_listed s s' collection key (value : V) :
  LevelDBStore.Put s collection key value = (s', None) →
  ∃ data, json_Marshal value = Ok data ∧
    (∀ m, LevelDBStore.List (V:=V) s' collection = Ok m →
          m !! key = match json_Unmarshal data with
                     | Ok v => Some v
                     | Err _ => None
                     end) ∧
    (∀ n, LevelDBStore.Count s' collection = Ok n → 1 ≤ n) ∧
    (∀ cs, cut_colon collection = None →
           LevelDBStore.ListCollections s' = Ok cs → collection ∈ cs).
Proof.
  intros Hput.
  assert (∃ data, json_Marshal value = Ok data ∧
            db_Get (LevelDBStore.db s') (LevelDBStore.makeKey collection key)
              = Ok data) as (data & Hm & Hget).
  { unfold LevelDBStore.Put in Hput. case_bool_decide as Hk; [done|].
    destruct (json_Marshal value) as [data|e]; [|done].
    destruct (db_Put _ _ _) as [d [e|]] eqn:Hp; [done|].
    injection Hput as <-. exists data. split; [done|]. cbn.
    rewrite (engine_get_put _ _ _ _ _ Hp). by rewrite decide_True. }
  exists data. split; [done|]. split_and!.
  - intros m Hl. pose proof (List_lookup _ _ _ Hl) as H1.
    destruct (json_Unmarshal data) as [v|e] eqn:Hj.
    + apply H1. by exists data.
    + destruct (m !! key) as [v|] eqn:Hv; [|done].
      apply H1 in Hv as (data' & Hg & Hj'). congruence.
  - intros n. unfold LevelDBStore.Count.
    destruct (db_IteratePrefix _ _) as [entries [e|]] eqn:Hit; [done|].
    intros [= <-].
    destruct (IteratePrefix_entries _ _ _ Hit) as (_ & _ & Hin).
    apply Hin in Hget. destruct entries; [by apply elem_of_nil in Hget|].
    simpl. lia.
  - intros cs Hc Hl. apply (ListCollections_plain _ _ _ Hl Hc).
    by exists key, data.
Qed.

End Listing.

Lemma X6_witness :
  let s' := fst (LevelDBStore.Put Ex.store0 "default" "a" Ex.one) in
  "a" ≠ "" ∧
  ∃ data, json_Marshal Ex.one = Ok data ∧
    LevelDBStore.Get (V:=bytes) s' "default" "a" =
      match json_Unmarshal data with
      | Ok v => Ok v
      | Err e => Err (Errorf_w "failed to deserialize value" e)
      end ∧
    ∀ c' k', LevelDBStore.makeKey c' k' ≠ LevelDBStore.makeKey "default" "a" →
             LevelDBStore.Get (V:=bytes) s' c' k' = LevelDBStore.Get Ex.store0 c' k'.
Proof.
  exact (X6_put_then_get Ex.store0
           (fst (LevelDBStore.Put Ex.store0 "default" "a" Ex.one))
           "default" "a" Ex.one eq_refl).
Defined.

Lemma X7_witness :
  let s' := fst (LevelDBStore.Delete Ex.store_a "default" "a") in
  "a" ≠ "" ∧
  (∃ data, db_Get (LevelDBStore.db Ex.store_a) (LevelDBStore.makeKey "default" "a")
             = Ok data) ∧
  LevelDBStore.Get (V:=bytes) s' "default" "a" = Err ErrKeyNotFound ∧
  LevelDBStore.Delete s' "default" "a" = (s', Some ErrKeyNotFound) ∧
  ∀ c' k', LevelDBStore.makeKey c' k' ≠ LevelDBStore.makeKey "default" "a" →
           LevelDBStore.Get (V:=bytes) s' c' k' = LevelDBStore.Get Ex.store_a c' k'.
Proof.
  exact (X7_delete_then_get (V:=bytes) Ex.store_a
           (fst (LevelDBStore.Delete Ex.store_a "default" "a"))
           "default" "a" eq_refl).
Defined.

Lemma X8_witness :
  LevelDBStore.Get (V:=bytes)
    (Server.storage (fst (Server.Commit Ex.server1 (pb.CommitRequest.mk "t1"))))
    "default" "a" = Ok Ex.one.
Proof.
  pose proof (X8_commit_then_get (V:=bytes) Ex.server1 (pb.CommitRequest.mk "t1")
                (PendingTransaction.mk pb.OperationType_PUT "default" "a" Ex.one)
                eq_refl) as H.
  destruct (Server.Commit Ex.server1 (pb.CommitRequest.mk "t1")) as [srv' resp] eqn:E.
  assert (Hs : pb.CommitResponse.Success resp = true) by (by injection E as _ <-).
  exact (proj2 (proj1 (H Hs) eq_refl)).
Defined.

Lemma X9_witness :
  let m : gmap string bytes := {[ "a" := Ex.one ]} in
  (∀ key v,
     m !! key = Some v ↔
     ∃ data, db_Get (LevelDBStore.db Ex.store_a) (LevelDBStore.makeKey "default" key)
               = Ok data ∧ json_Unmarshal data = Ok v) ∧
  (∀ key v, key ≠ "" →
     m !! key = Some v ↔ LevelDBStore.Get Ex.store_a "default" key = Ok v).
Proof.
  apply (X9_list_agrees_with_get (V:=bytes) Ex.store_a "default").
  vm_compute. reflexivity.
Defined.

Lemma X11_witness :
  let cs : gset string := {[ "default" ]} in
  (∀ c, c ∈ cs ↔
        ∃ dbKey data after,
          db_Get (LevelDBStore.db Ex.store_a) dbKey = Ok data ∧
          cut_colon dbKey = Some (c, after)) ∧
  (∀ c, cut_colon c = None →
        c ∈ cs ↔
        ∃ key data,
          db_Get (LevelDBStore.db Ex.store_a) (LevelDBStore.makeKey c key) = Ok data) ∧
  (∀ c, c ∈ cs → cut_colon c = None).
Proof.
  apply (X11_list_collections Ex.store_a).
  vm_compute. reflexivity.
Defined.

Lemma X12_witness :
  let s' := fst (LevelDBStore.Put Ex.store0 "default" "a" Ex.one) in
  ∃ data, json_Marshal Ex.one = Ok data ∧
    (∀ m, LevelDBStore.List (V:=bytes) s' "default" = Ok m →
          m !! "a" = match json_Unmarshal data with
                     | Ok v => Some v
                     | Err _ => None
                     end) ∧
    (∀ n, LevelDBStore.Count s' "default" = Ok n → 1 ≤ n) ∧
    (∀ cs, cut_colon "default" = None →
           LevelDBStore.ListCollections s' = Ok cs → "default" ∈ cs).
Proof.
  exact (X12_put_is_listed Ex.store0
           (fst (LevelDBStore.Put Ex.store0 "default" "a" Ex.one))
           "default" "a" Ex.one eq_refl).
Defined.

(** A store holding key [k] of collection [a:b], an entry that does not
    belong to any collection, and the empty key of collection [c]. *)
Example listing_with_colons :
  let s := LevelDBStore.mk
             (mkMemDB {[ "a:b:k" := Ex.one; "loose" := Ex.two; "c:" := Ex.two ]} None) in
  LevelDBStore.ListCollections s = Ok ({[ "a"; "c" ]} : gset string) ∧
  LevelDBStore.List (V:=bytes) s "a" = Ok {[ "b:k" := Ex.one ]} ∧
  LevelDBStore.List (V:=bytes) s "a:b" = Ok {[ "k" := Ex.one ]} ∧
  LevelDBStore.List (V:=bytes) s "c" = Ok {[ "" := Ex.two ]} ∧
  LevelDBStore.Get (V:=bytes) s "c" "" = Err ErrInvalidKey ∧
  LevelDBStore.Count s "a" = Ok 1 ∧
  LevelDBStore.Count s "loose" = Ok 0.
Proof. vm_compute. done. Qed.


(** ** The coordinator: the shape of a round *)

Section RoundShape.
Context {W : Type} `{!Transport W}.
Implicit Types (m : Manager.t) (n : Net W).

(** X13. A round with at least one client first sends the same prepare
    request, carrying the round's transaction id and sequence number, to
    each scheduled client, and only then either a commit of that id to each
    scheduled client or an abort of that id to some of them, never both;
    commits are sent only if every prepare came back ready without error,
    and the round returns no error only if commits were sent. *)
Theorem X13_round_shape sch now m op collection key value n :
  Manager.clients m ≠ [] →
  let txn := snd (Manager.generateTxnID m now) in
  let seq := snd (Manager.nextSeq (fst (Manager.generateTxnID m now))) in
  let req := pb.PrepareRequest.mk txn op collection key value seq in
  let '(_, results) := Manager.prepareResults sch now m op collection key value n in
  let '(m', n', e) := Manager.replicate2PC sch now m op collection key value n in
  ∃ phase2,
    sent n' = sent n
              ++ ((λ c, SentPrepare (Client.addr c) req)
                    <$> sch PhasePrepare (Manager.clients m))
              ++ phase2 ∧
    ((Forall (λ r, Manager.err r = None ∧ Manager.ready r = true) results ∧
      phase2 = (λ c, SentCommit (Client.addr c) (pb.CommitRequest.mk txn))
                 <$> sch PhaseCommit (Manager.clients m))
     ∨
     (Exists (λ r, is_Some (Manager.err r) ∨ Manager.ready r = false) results ∧
      is_Some e ∧
      ∃ aborted,
        phase2 = (λ c, SentAbort (Client.addr c) (pb.AbortRequest.mk txn))
                   <$> aborted)).
Proof.
  intros Hne. cbv zeta.
  rewrite (replicate2PC_unfold _ _ _ _ _ _ _ _ Hne). cbv zeta.
  unfold Manager.commitResults, Manager.prepareResults.
  cbn [Manager.generateTxnID Manager.nextSeq fst snd Manager.clients].
  match goal with |- context [Manager.sendPrepares ?cs ?t ?o ?c ?k ?v ?s n] =>
    pose proof (sendPrepares_sent cs t o c k v s n) as Hs;
    destruct (Manager.sendPrepares cs t o c k v s n) as [n1 results]
  end.
  cbn [fst] in *.
  destruct (forallb Manager.responded_ready results) eqn:Hall.
  - match goal with |- context [Manager.sendCommits ?cs ?t n1] =>
      pose proof (sendCommits_sent cs t n1) as Hc;
      destruct (Manager.sendCommits cs t n1) as [n2 commits]
    end.
    cbn [fst] in *. eexists. split.
    + rewrite Hc, Hs, <- app_assoc. reflexivity.
    + left. split; [|done]. by apply forallb_responded_ready.
  - eexists. split.
    + rewrite sendAborts_sent, Hs, <- app_assoc. reflexivity.
    + right. split; [by apply forallb_responded_ready_false|].
      split; [by eexists|]. by eexists.
Qed.

End RoundShape.

Lemma X13_witness :
  let '(m', n', e) :=
    Manager.replicate2PC in_order 7 Ex.manager0 pb.OperationType_PUT
      "default" "a" Ex.one (Ex.net Ex.healthy) in
  sent n' =
    [SentPrepare "r1" (pb.PrepareRequest.mk "txn-7-1" 0 "default" "a" Ex.one 1);
     SentPrepare "r2" (pb.PrepareRequest.mk "txn-7-1" 0 "default" "a" Ex.one 1);
     SentCommit "r1" (pb.CommitRequest.mk "txn-7-1");
     SentCommit "r2" (pb.CommitRequest.mk "txn-7-1")].
Proof.
  assert (Hne : Manager.clients Ex.manager0 ≠ []) by discriminate.
  pose proof (X13_round_shape in_order 7 Ex.manager0 pb.OperationType_PUT
                "default" "a" Ex.one (Ex.net Ex.healthy) Hne) as H.
  cbv zeta in H.
  vm_compute (Manager.prepareResults _ _ _ _ _ _ _ _) in H.
  destruct (Manager.replicate2PC _ _ _ _ _ _ _ _) as [[m' n'] e].
  destruct H as (phase2 & Hs & [[_ ->]|(Hex & _)]).
  - exact Hs.
  - exfalso. apply Exists_cons in Hex as [[[x Hx]|Hx]|Hex]; [discriminate..|].
    apply Exists_cons in Hex as [[[x Hx]|Hx]|Hex]; [discriminate..|].
    by apply Exists_nil in Hex.
Defined.

(** ** Configuration and start-up *)

Lemma Split_comma_nonempty (s : string) : Split_comma s ≠ [].
Proof.
  destruct s as [|a s]; cbn [Split_comma]; [done|].
  destruct (Ascii.eqb a ","); [done|]. by destruct (Split_comma s).
Qed.

Lemma Join_Split_comma (s : string) : Join_comma (Split_comma s) = s.
Proof.
  induction s as [|a s IH]; cbn [Split_comma]; [done|].
  destruct (Ascii.eqb a ",") eqn:Ea.
  - apply Ascii.eqb_eq in Ea as ->.
    pose proof (Split_comma_nonempty s) as Hne.
    cbn [Join_comma]. destruct (Split_comma s) as [|p ps]; [done|].
    rewrite IH. reflexivity.
  - pose proof (Split_comma_nonempty s) as Hne.
    destruct (Split_comma s) as [|p ps]; [done|].
    destruct ps as [|q qs]; cbn [Join_comma] in *.
    + by rewrite IH.
    + rewrite append_cons. by rewrite IH.
Qed.

Lemma Split_comma_pieces (s : string) :
  Forall (λ piece, Split_comma piece = [piece]) (Split_comma s).
Proof.
  induction s as [|a s IH]; cbn [Split_comma].
  - by repeat constructor.
  - destruct (Ascii.eqb a ",") eqn:Ea.
    + constructor; [done|exact IH].
    + pose proof (Split_comma_nonempty s) as Hne.
      destruct (Split_comma s) as [|p ps]; [done|].
      apply Forall_cons in IH as [Hp Hps]. constructor; [|done].
      cbn [Split_comma]. by rewrite Ea, Hp.
Qed.

Lemma Load_roles (environ : string → string) :
  Config.IsMaster (Config.Load environ)
    = negb (Config.IsSlave (Config.Load environ)) ∧
  (Config.IsSlave (Config.Load environ) = true ↔ environ "ROLE" = "slave").
Proof.
  unfold Config.Load, Config.IsMaster, Config.IsSlave, Config.getEnv.
  cbn [Config.Role].
  unfold Config.RoleMaster, Config.RoleSlave. split.
  - repeat case_bool_decide; simpl in *; try done; congruence.
  - repeat case_bool_decide; simpl in *; split; try done; congruence.
Qed.

(** X14. A loaded configuration is a master unless ROLE is exactly
    [slave]: it is never both and never neither, and any other value, the
    unset variable included, gives a master.  Its slave addresses are the
    pieces of SLAVE_ADDRS between the commas (joined by commas they give
    the variable back, and no piece can be split further), and there are none when
    the variable is unset. *)
Theorem X14_load (environ : string → string) :
  let cfg := Config.Load environ in
  Config.IsMaster cfg = negb (Config.IsSlave cfg) ∧
  (Config.IsSlave cfg = true ↔ environ "ROLE" = "slave") ∧
  (environ "SLAVE_ADDRS" = "" → Config.SlaveAddrs cfg = []) ∧
  (environ "SLAVE_ADDRS" ≠ "" →
   Join_comma (Config.SlaveAddrs cfg) = environ "SLAVE_ADDRS" ∧
   Forall (λ piece, Split_comma piece = [piece]) (Config.SlaveAddrs cfg)).
Proof.
  cbv zeta. destruct (Load_roles environ) as [H1 H2].
  split_and!; [exact H1|exact H2| |];
    unfold Config.Load, Config.getEnv; cbn [Config.SlaveAddrs].
  - intros ->. by rewrite !bool_decide_false by (by intros ?).
  - intros Hne. rewrite !(bool_decide_true (environ "SLAVE_ADDRS" ≠ "")) by done.
    split; [apply Join_Split_comma|apply Split_comma_pieces].
Qed.

Lemma NewManager_clients (dial : string → option error) (addrs : list string) :
  Manager.NewManager dial addrs =
    Manager.mk
      (Client.mk <$> filter (λ a, a ≠ "" ∧ dial a = None) addrs) 0 0.
Proof.
  unfold Manager.NewManager.
  enough (G : ∀ addrs cs,
             foldl (λ m addr,
                      if bool_decide (addr = "") then m
                      else match dial addr with
                           | Some _ => m
                           | None =>
                               Manager.mk (Manager.clients m ++ [Client.mk addr])
                                 (Manager.seq m) (Manager.txnID m)
                           end) (Manager.mk cs 0 0) addrs =
             Manager.mk
               (cs ++ (Client.mk <$> filter (λ a, a ≠ "" ∧ dial a = None) addrs))
               0 0).
  { by rewrite G. }
  clear addrs. induction addrs as [|a addrs IH]; intros cs; simpl.
  - by rewrite app_nil_r.
  - case_bool_decide as Ha.
    + rewrite IH, filter_cons_False; [done|]. by intros [? _].
    + destruct (dial a) as [e|] eqn:Hd.
      * rewrite IH, filter_cons_False; [done|]. intros [_ ?]. congruence.
      * cbn [Manager.clients Manager.seq Manager.txnID].
        rewrite IH, filter_cons_True by done.
        by rewrite fmap_cons, <- app_assoc.
Qed.

Section SingleNode.
Context {DB V W : Type} `{!Engine DB} `{!Json V} `{!Transport W}.

Lemma start_without_participants environ dial (baseStore : LevelDBStore.t DB) :
  environ "ROLE" ≠ "slave" →
  Forall (λ a, a = "" ∨ is_Some (dial a))
         (Config.SlaveAddrs (Config.Load environ)) →
  let rs := snd (Node.start (Config.Load environ) dial baseStore) in
  Config.IsSlave (ReplicatedStore.config rs) = false ∧
  ReplicatedStore.store rs = baseStore ∧
  ReplicatedStore.replicates rs = None.
Proof.
  intros Hrole Hdial. cbv zeta. unfold Node.start. cbn [snd].
  destruct (Load_roles environ) as (Hms & Hs).
  assert (Hslave : Config.IsSlave (Config.Load environ) = false).
  { destruct (Config.IsSlave (Config.Load environ)); [|done].
    exfalso. apply Hrole. by apply Hs. }
  rewrite Hms, Hslave. cbn [negb]. split_and!; [done..|].
  unfold ReplicatedStore.replicates. cbn [ReplicatedStore.manager].
  rewrite NewManager_clients. unfold Manager.SlaveCount. cbn [Manager.clients].
  assert (filter (λ a, a ≠ "" ∧ dial a = None)
            (Config.SlaveAddrs (Config.Load environ)) = []) as ->.
  { induction Hdial as [|a l Ha Hl IH]; [done|].
    rewrite filter_cons_False; [done|].
    intros [Hne Hd]. destruct Ha as [->|[e He]]; [done|congruence]. }
  done.
Qed.

(** X15. On a node loaded with ROLE other than [slave] whose slave
    addresses are all empty or cannot be dialled (none at all when
    SLAVE_ADDRS is unset), Put sends nothing, leaves the local store as the
    adapter's Put leaves it and returns an error exactly when the adapter's
    Put does.  Delete sends nothing; when it returns no error the adapter's
    Delete has run without error; and when the existence check fails, even
    because the stored bytes do not parse, it returns that error and deletes
    nothing. *)
Theorem X15_single_node environ dial (baseStore : LevelDBStore.t DB)
    sch now collection key (value : V) (n : Net W) :
  environ "ROLE" ≠ "slave" →
  Forall (λ a, a = "" ∨ is_Some (dial a))
         (Config.SlaveAddrs (Config.Load environ)) →
  let rs := snd (Node.start (Config.Load environ) dial baseStore) in
  (let '(rs', n', e) := ReplicatedStore.Put sch now rs collection key value n in
   n' = n ∧
   ReplicatedStore.store rs'
     = fst (LevelDBStore.Put baseStore collection key value) ∧
   (e = None ↔ snd (LevelDBStore.Put baseStore collection key value) = None)) ∧
  (let '(rs', n', e) := ReplicatedStore.Delete (V:=V) sch now rs collection key n in
   n' = n ∧
   (e = None →
    ReplicatedStore.store rs' = fst (LevelDBStore.Delete baseStore collection key) ∧
    snd (LevelDBStore.Delete baseStore collection key) = None) ∧
   (∀ err, LevelDBStore.Get (V:=V) baseStore collection key = Err err →
           e = Some err ∧ ReplicatedStore.store rs' = baseStore)).
Proof.
  intros Hrole Hdial.
  destruct (start_without_participants environ dial baseStore Hrole Hdial)
    as (Hslave & Hstore & Hrep).
  cbv zeta. set (rs := snd (Node.start _ _ _)) in *. split.
  - unfold ReplicatedStore.Put. rewrite Hslave, Hrep, Hstore.
    unfold LevelDBStore.Put.
    destruct (json_Marshal value) as [data|err]; cbn beta iota.
    + case_bool_decide as Hk; cbn [fst snd]; [by split_and!|].
      destruct (db_Put _ _ _) as [d [err|]]; cbn [fst snd ReplicatedStore.store];
        by split_and!.
    + case_bool_decide as Hk; cbn [fst snd]; by split_and!.
  - unfold ReplicatedStore.Delete. rewrite Hslave, Hrep, Hstore.
    destruct (LevelDBStore.Get (V:=V) baseStore collection key) as [v|err] eqn:Hg;
      cbn beta iota.
    + destruct (LevelDBStore.Delete baseStore collection key) as [st [err|]];
        cbn [fst snd ReplicatedStore.store]; by split_and!.
    + split_and!; [done|done|]. intros err' [= <-]. by rewrite Hstore.
Qed.

End SingleNode.

Lemma X14_witness :
  let environ := λ k : string,
    if bool_decide (k = "ROLE") then "replica"
    else if bool_decide (k = "SLAVE_ADDRS") then "r1,,r2" else "" in
  Config.IsSlave (Config.Load environ) = false ∧
  Config.SlaveAddrs (Config.Load environ) = ["r1"; ""; "r2"] ∧
  Join_comma (Config.SlaveAddrs (Config.Load environ)) = "r1,,r2".
Proof.
  pose proof (X14_load (λ k : string,
      if bool_decide (k = "ROLE") then "replica"
      else if bool_decide (k = "SLAVE_ADDRS") then "r1,,r2" else "")) as H.
  cbv zeta in H. destruct H as (_ & _ & _ & H).
  split_and!; [reflexivity|reflexivity|]. apply H. discriminate.
Defined.

Lemma X15_witness :
  let environ := λ k : string, "" in
  let rs := snd (Node.start (Config.Load environ) (λ _, None) Ex.store0) in
  let '(rs', n', e) :=
    ReplicatedStore.Put in_order 7 rs "default" "a" Ex.one (Ex.net Ex.healthy) in
  n' = Ex.net Ex.healthy ∧
  ReplicatedStore.store rs' = fst (LevelDBStore.Put Ex.store0 "default" "a" Ex.one) ∧
  (e = None ↔ snd (LevelDBStore.Put Ex.store0 "default" "a" Ex.one) = None).
Proof.
  refine (proj1 (X15_single_node (λ k : string, "") (λ _, None) Ex.store0
                   in_order 7 "default" "a" Ex.one (Ex.net Ex.healthy) _ _)).
  - discriminate.
  - constructor.
Defined.

(** ** Rounds against live participants *)

Section Cluster.
Implicit Types (w : gmap string Peer) (n : Net (gmap string Peer))
  (m : Manager.t) (cs : list Client.t).

Lemma Prepare_idem (s : Server.t MemDB) req :
  fst (Server.Prepare (fst (Server.Prepare s req)) req) = fst (Server.Prepare s req).
Proof.
  pose proof (Prepare_twice s req) as H.
  destruct (Server.Prepare s req) as [s1 r1]. cbn [fst].
  destruct (Server.Prepare s1 req) as [s2 r2]. by destruct H as (_ & _ & -> & _).
Qed.



(** One prepare call: the participant at the address, if live, takes the
    Prepare; nobody else changes; the call counts as ready exactly when
    the participant is live. *)
Lemma Client_Prepare_world (c : Client.t) txn op collection key value seq n a :
  let req := pb.PrepareRequest.mk txn op collection key value seq in
  world (fst (Client.Prepare c txn op collection key value seq n)) !! a =
    match world n !! a with
    | Some (Live s) =>
        if decide (a = Client.addr c)
        then Some (Live (fst (Server.Prepare s req)))
        else Some (Live s)
    | o => o
    end.
Proof.
  cbv zeta. unfold Client.Prepare. cbn [rpc_Prepare Cluster_Transport].
  unfold Cluster_Prepare.
  destruct (decide (a = Client.addr c)) as [->|Hne].
  - destruct (world n !! Client.addr c) as [[s| |]|] eqn:Hw; cbn; rewrite ?Hw; try done.
    destruct (Server.Prepare s _) as [s' resp] eqn:Hp. cbn.
    by rewrite lookup_insert_eq.
  - destruct (world n !! Client.addr c) as [[s| |]|] eqn:Hw; cbn;
      try (by destruct (world n !! a) as [[?| |]|]).
    destruct (Server.Prepare s _) as [s' resp] eqn:Hp. cbn.
    rewrite lookup_insert_ne by done. by destruct (world n !! a) as [[?| |]|].
Qed.


Lemma sendPrepares_world cs txn op collection key value seq n a :
  let req := pb.PrepareRequest.mk txn op collection key value seq in
  world (fst (Manager.sendPrepares cs txn op collection key value seq n)) !! a =
    match world n !! a with
    | Some (Live s) =>
        if decide (a ∈ Client.addr <$> cs)
        then Some (Live (fst (Server.Prepare s req)))
        else Some (Live s)
    | o => o
    end.
Proof.
  cbv zeta. revert n. induction cs as [|c cs IH]; intros n.
  - cbn. by destruct (world n !! a) as [[s| |]|].
  - cbn [Manager.sendPrepares].
    pose proof (Client_Prepare_world c txn op collection key value seq n a) as Hc.
    cbv zeta in Hc.
    destruct (Client.Prepare c txn op collection key value seq n) as [n1 [rdy e]].
    specialize (IH n1).
    destruct (Manager.sendPrepares cs txn op collection key value seq n1)
      as [n2 rs]. cbn [fst] in *.
    rewrite IH, Hc. rewrite fmap_cons.
    destruct (world n !! a) as [[s| |]|]; try done.
    destruct (decide (a = Client.addr c)) as [->|Hne].
    + rewrite (decide_True (P:=_ ∈ _ :: _)) by (apply elem_of_cons; by left).
      case_decide; [by rewrite Prepare_idem|done].
    + destruct (decide (a ∈ Client.addr <$> cs)) as [Hin|Hnin].
      * by rewrite decide_True by (apply elem_of_cons; by right).
      * rewrite decide_False; [done|].
        intros [?|?]%elem_of_cons; done.
Qed.





Lemma Commit_server_applied (s : Server.t MemDB) txn op collection key value :
  (∀ t0, Server.pending s !! txn = Some t0 →
         t0 = PendingTransaction.mk op collection key value) →
  let '(s', resp) := Server.Commit s (pb.CommitRequest.mk txn) in
  (∀ t0, Server.pending s' !! txn = Some t0 →
         t0 = PendingTransaction.mk op collection key value) ∧
  (Server.pending s !! txn = None → s' = s) ∧
  (pb.CommitResponse.Success resp = true →
   Server.pending s' !! txn = None ∧
   (op = pb.OperationType_PUT →
    key ≠ "" ∧
    contents (LevelDBStore.db (Server.storage s'))
      !! LevelDBStore.makeKey collection key = Some value) ∧
   (op = pb.OperationType_DELETE →
    key ≠ "" ∧
    contents (LevelDBStore.db (Server.storage s'))
      !! LevelDBStore.makeKey collection key = None)).
Proof.
  intros Hst. unfold Server.Commit. cbn [pb.CommitRequest.TransactionId].
  destruct (Server.pending s !! txn) as [t0|] eqn:Hp.
  - rewrite (Hst t0 eq_refl).
    destruct (Server.apply (Server.storage s) _) as [st [e|]] eqn:Ha.
    + cbn. split_and!; [|done|done]. intros t1 Ht1. apply Hst. congruence.
    + cbn [Server.pending Server.storage pb.CommitResponse.Success].
      split_and!; [|done|].
      * intros t1. by rewrite lookup_delete_eq.
      * intros _. split; [apply lookup_delete_eq|].
        unfold Server.apply in Ha. cbn in Ha. split.
        -- intros ->. rewrite bool_decide_true in Ha by done.
           unfold LevelDBStore.PutDirect in Ha.
           case_bool_decide as Hk; [done|]. split; [done|].
           cbn in Ha. unfold MemDB_Put in Ha.
           destruct (fault _); [done|]. injection Ha as <-. cbn.
           apply lookup_insert_eq.
        -- intros ->. rewrite bool_decide_false, bool_decide_true in Ha by done.
           unfold LevelDBStore.DeleteDirect in Ha.
           case_bool_decide as Hk; [done|]. split; [done|].
           cbn in Ha. unfold MemDB_Delete in Ha.
           destruct (fault _); [done|]. injection Ha as <-. cbn.
           apply lookup_delete_eq.
  - cbn. split_and!; [|done|done]. intros t0 Ht0. congruence.
Qed.

Lemma Client_Commit_applied (c : Client.t) txn op collection key value n :
  (∀ a s t0, world n !! a = Some (Live s) →
             Server.pending s !! txn = Some t0 →
             t0 = PendingTransaction.mk op collection key value) →
  let '(n1, r) := Client.Commit c txn n in
  (∀ a s t0, world n1 !! a = Some (Live s) →
             Server.pending s !! txn = Some t0 →
             t0 = PendingTransaction.mk op collection key value) ∧
  (∀ a, applied_at op collection key value txn (world n) a →
        applied_at op collection key value txn (world n1) a) ∧
  (r = None → applied_at op collection key value txn (world n1) (Client.addr c)).
Proof.
  intros Hst. unfold Client.Commit. cbn [rpc_Commit Cluster_Transport].
  unfold Cluster_Commit.
  destruct (world n !! Client.addr c) as [[s| |]|] eqn:Hw; cbn;
    try (split_and!; [exact Hst|done|done]).
  pose proof (Commit_server_applied s txn op collection key value
                (λ t0, Hst _ _ t0 Hw)) as Hsrv.
  destruct (Server.Commit s (pb.CommitRequest.mk txn)) as [s' resp].
  destruct Hsrv as (Hst' & Hsame & Hok). cbn [fst snd world].
  assert (Hkeep : ∀ a, applied_at op collection key value txn (world n) a →
            applied_at op collection key value txn
              (<[Client.addr c:=Live s']> (world n)) a).
  { intros a (s0 & Ha & Hn & Hput & Hdel).
    destruct (decide (a = Client.addr c)) as [->|Hne].
    - rewrite Hw in Ha. injection Ha as <-. exists s'.
      rewrite (Hsame Hn). rewrite lookup_insert_eq. by split_and!.
    - exists s0. rewrite lookup_insert_ne by done. by split_and!. }
  assert (Hst2 : ∀ a s0 t0,
            <[Client.addr c:=Live s']> (world n) !! a = Some (Live s0) →
            Server.pending s0 !! txn = Some t0 →
            t0 = PendingTransaction.mk op collection key value).
  { intros a s0 t0. destruct (decide (a = Client.addr c)) as [->|Hne].
    - rewrite lookup_insert_eq. intros [= <-]. apply Hst'.
    - rewrite lookup_insert_ne by done. apply Hst. }
  destruct (pb.CommitResponse.Success resp) eqn:Hs; cbn.
  - split_and!; [exact Hst2|exact Hkeep|]. intros _.
    destruct (Hok eq_refl) as (Hn & Hput & Hdel).
    exists s'. rewrite lookup_insert_eq. by split_and!.
  - split_and!; [exact Hst2|exact Hkeep|done].
Qed.

Lemma sendCommits_applied cs txn op collection key value n :
  (∀ a s t0, world n !! a = Some (Live s) →
             Server.pending s !! txn = Some t0 →
             t0 = PendingTransaction.mk op collection key value) →
  let '(n2, commits) := Manager.sendCommits cs txn n in
  (∀ a, applied_at op collection key value txn (world n) a →
        applied_at op collection key value txn (world n2) a) ∧
  Forall2 (λ c r, r = None →
                  applied_at op collection key value txn (world n2) (Client.addr c))
          cs commits.
Proof.
  revert n. induction cs as [|c cs IH]; intros n Hst; cbn [Manager.sendCommits].
  - split; [done|constructor].
  - pose proof (Client_Commit_applied c txn op collection key value n Hst) as Hc.
    destruct (Client.Commit c txn n) as [n1 r].
    destruct Hc as (Hst1 & Hkeep1 & Hr).
    specialize (IH n1 Hst1).
    destruct (Manager.sendCommits cs txn n1) as [n2 commits].
    destruct IH as [Hkeep2 Hall]. split.
    + intros a Ha. by apply Hkeep2, Hkeep1.
    + constructor; [|done]. intros Hn. by apply Hkeep2, Hr.
Qed.

(** X17. Against participants that run the participant code over the
    in-memory engine, and with a transaction id that was staged nowhere
    before: each participant whose commit call came back without error
    holds the write (the value under the composite key for a PUT, nothing
    under it for a DELETE) and has nothing left staged, whatever the other
    participants answered; so when the round returns no error every
    participant of the coordinator holds it. *)
Theorem X17_committed_participants_hold_write sch now m op collection key value n :
  Manager.clients m ≠ [] →
  let txn := snd (Manager.generateTxnID m now) in
  fresh_in txn (world n) →
  (let '(n2, commits) :=
     Manager.commitResults sch now m op collection key value n in
   Forall2 (λ c r, r = None →
                   applied_at op collection key value txn (world n2)
                     (Client.addr c))
           (sch PhaseCommit (Manager.clients m)) commits) ∧
  (let '(m', n', e) := Manager.replicate2PC sch now m op collection key value n in
   e = None →
   ∀ c, c ∈ sch PhaseCommit (Manager.clients m) →
        applied_at op collection key value txn (world n') (Client.addr c)).
Proof.
  intros Hne. cbv zeta. intros Hfresh.
  rewrite (replicate2PC_unfold _ _ _ _ _ _ _ _ Hne). cbv zeta.
  unfold Manager.commitResults, Manager.prepareResults.
  cbn [Manager.generateTxnID Manager.nextSeq fst snd Manager.clients
       Manager.seq Manager.txnID] in *.
  set (txn := "txn-" +:+ pretty now +:+ "-"
              +:+ pretty ((Manager.txnID m + 1) mod 2 ^ 64)) in *.
  set (seq := (Manager.seq m + 1) mod 2 ^ 64).
  set (cs1 := sch PhasePrepare (Manager.clients m)).
  pose proof (λ a, sendPrepares_world cs1 txn op collection key value seq n a) as Hw.
  cbv zeta in Hw.
  destruct (Manager.sendPrepares cs1 txn op collection key value seq n)
    as [n1 results]. cbn [fst snd] in *.
  assert (Hst : ∀ a s t0, world n1 !! a = Some (Live s) →
                  Server.pending s !! txn = Some t0 →
                  t0 = PendingTransaction.mk op collection key value).
  { intros a s t0 Ha Ht. rewrite Hw in Ha.
    destruct (world n !! a) as [[s0| |]|] eqn:Ha0; try done.
    pose proof (Hfresh a s0 Ha0) as Hn.
    case_decide; injection Ha as <-.
    - rewrite (Prepare_fresh s0 (pb.PrepareRequest.mk txn op collection key value seq))
        in Ht by done.
      cbn in Ht. rewrite lookup_insert_eq in Ht. congruence.
    - congruence. }
  pose proof (sendCommits_applied (sch PhaseCommit (Manager.clients m)) txn op
                collection key value n1 Hst) as Hc.
  destruct (Manager.sendCommits (sch PhaseCommit (Manager.clients m)) txn n1)
    as [n2 commits].
  destruct Hc as [_ Hall]. split; [exact Hall|].
  destruct (forallb Manager.responded_ready results); [|done].
  destruct (omap id commits) as [|e0 l] eqn:Ho; [|done].
  intros _ c Hin.
  apply omap_id_nil in Ho.
  apply list_elem_of_lookup in Hin as [i Hi].
  destruct (Forall2_lookup_l _ _ _ _ _ Hall Hi) as (r & Hr & Happ).
  apply Happ. eapply (proj1 (Forall_forall _ _) Ho). by eapply list_elem_of_lookup_2.
Qed.

End Cluster.

Lemma fresh_in_idle (txn : string) (w : gmap string Peer) :
  map_Forall (λ _ p, match p with
                     | Live s => Server.pending s = ∅
                     | _ => True
                     end) w →
  fresh_in txn w.
Proof.
  intros H a s Ha. specialize (H a (Live s) Ha). cbn in H.
  rewrite H. apply lookup_empty.
Qed.

Lemma examples_idle :
  map_Forall (λ _ p, match p with
                     | Live s => Server.pending s = ∅
                     | _ => True
                     end) Ex.partitioned ∧
  map_Forall (λ _ p, match p with
                     | Live s => Server.pending s = ∅
                     | _ => True
                     end) Ex.healthy.
Proof.
  split; unfold Ex.partitioned, Ex.healthy.
  - apply map_Forall_insert_2; [done|]. apply map_Forall_insert_2; [done|].
    apply map_Forall_empty.
  - apply map_Forall_insert_2; [done|]. apply map_Forall_insert_2; [done|].
    apply map_Forall_empty.
Defined.


Lemma X17_witness :
  applied_at pb.OperationType_PUT "default" "a" Ex.one "txn-7-1"
    (world (snd (fst (Manager.replicate2PC in_order 7 Ex.manager0
                        pb.OperationType_PUT "default" "a" Ex.one
                        (Ex.net Ex.healthy)))))
    (Client.addr Ex.r1) ∧
  applied_at pb.OperationType_PUT "default" "a" Ex.one "txn-7-1"
    (world (snd (fst (Manager.replicate2PC in_order 7 Ex.manager0
                        pb.OperationType_PUT "default" "a" Ex.one
                        (Ex.net Ex.healthy)))))
    (Client.addr Ex.r2).
Proof.
  assert (Hne : Manager.clients Ex.manager0 ≠ []) by discriminate.
  pose proof (proj2 (X17_committed_participants_hold_write in_order 7 Ex.manager0
                       pb.OperationType_PUT "default" "a" Ex.one (Ex.net Ex.healthy)
                       Hne (fresh_in_idle _ _ (proj2 examples_idle)))) as H.
  split.
  - exact (H eq_refl Ex.r1 (list_elem_of_here _ _)).
  - exact (H eq_refl Ex.r2 (list_elem_of_further _ _ _ (list_elem_of_here _ _))).
Defined.

(** ** The object handlers *)

Section Handlers.
Context {DB V W : Type} `{!Engine DB} `{!Iterable DB} `{!Json V} `{!Transport W}
  `{!LawfulEngine DB}.
Implicit Types (store : ReplicatedStore.t DB) (n : Net W) (c : Handler.Ctx (V:=V)).

(** X18. PutObject answers 400 exactly when the body did not parse or its
    key is empty, and then neither the store nor the network has changed;
    it answers 200 exactly when the body parsed, the key is non-empty and
    the replicated Put returned no error; in every other case it answers
    500. *)
Theorem X18_put_object_status sch now store c n :
  let '(store', n', resp) := Handler.PutObject sch now store c n in
  (Handler.Status resp = Handler.StatusBadRequest ↔
   (∃ e, Handler.body c = Err e) ∨
   (∃ req, Handler.body c = Ok req ∧ Handler.Key req = "")) ∧
  (Handler.Status resp = Handler.StatusBadRequest → store' = store ∧ n' = n) ∧
  (Handler.Status resp = Handler.StatusOK ↔
   ∃ req, Handler.body c = Ok req ∧ Handler.Key req ≠ "" ∧
          snd (ReplicatedStore.Put sch now store (Handler.collection c)
                 (Handler.Key req) (Handler.Value req) n) = None) ∧
  (Handler.Status resp = Handler.StatusBadRequest ∨
   Handler.Status resp = Handler.StatusOK ∨
   Handler.Status resp = Handler.StatusInternalServerError).
Proof.
  unfold Handler.PutObject, Handler.StatusBadRequest, Handler.StatusOK,
    Handler.StatusInternalServerError.
  destruct (Handler.body c) as [req|e] eqn:Hb.
  - case_bool_decide as Hk.
    + cbn. split_and!; try done.
      * split; [|done]. intros _. right. by exists req.
      * split; [done|]. intros (req' & [= <-] & Hne & _). destruct (Hne Hk).
      * by left.
    + destruct (ReplicatedStore.Put _ _ _ _ _ _ _) as [[store' n'] [err|]] eqn:Hp;
        cbn.
      * split_and!; try done.
        -- split; [done|]. intros [[e [=]]|(req' & [= <-] & Hk')]. destruct (Hk Hk').
        -- split; [done|]. intros (req' & [= <-] & _ & Hn). rewrite Hp in Hn. discriminate Hn.
        -- by right; right.
      * split_and!; try done.
        -- split; [done|]. intros [[e [=]]|(req' & [= <-] & Hk')]. destruct (Hk Hk').
        -- split; [|done]. intros _. exists req. split_and!; [done|done|by rewrite Hp].
        -- by right; left.
  - cbn. split_and!; try done.
    + split; [|done]. intros _. left. by exists e.
    + split; [done|]. by intros (req & [=] & _).
    + by left.
Qed.

(** X19. On a slave node a PutObject whose body parsed with a non-empty
    key, and any DeleteObject, is answered 500 with the message that sends
    the client to the master; the store and the network are as before. *)
Theorem X19_replica_answers_500 sch now store c n req :
  Config.IsSlave (ReplicatedStore.config store) = true →
  Handler.body c = Ok req → Handler.Key req ≠ "" →
  Handler.PutObject sch now store c n =
    (store, n,
     Handler.mkResponse Handler.StatusInternalServerError
       (Handler.ErrorResponse
          "writes not allowed on slave nodes, send request to master")) ∧
  Handler.DeleteObject sch now store c n =
    (store, n,
     Handler.mkResponse Handler.StatusInternalServerError
       (Handler.ErrorResponse
          "deletes not allowed on slave nodes, send request to master")).
Proof.
  intros Hs Hb Hk. unfold Handler.PutObject, Handler.DeleteObject.
  rewrite Hb, bool_decide_false by done.
  unfold ReplicatedStore.Put, ReplicatedStore.Delete. by rewrite Hs.
Qed.

(** X20. On the master a DeleteObject for a key the engine reports absent
    is answered 404 when the key is non-empty, and 500 with "invalid key"
    when it is empty; in both cases nothing is sent and nothing changes. *)
Theorem X20_delete_object_absent sch now store c n :
  Config.IsSlave (ReplicatedStore.config store) = false →
  db_Get (LevelDBStore.db (ReplicatedStore.store store))
         (LevelDBStore.makeKey (Handler.collection c) (Handler.param_key c))
    = Err leveldb_ErrNotFound →
  (Handler.param_key c ≠ "" →
   Handler.DeleteObject sch now store c n =
     (store, n,
      Handler.mkResponse Handler.StatusNotFound
        (Handler.ErrorResponse "Key not found"))) ∧
  (Handler.param_key c = "" →
   Handler.DeleteObject sch now store c n =
     (store, n,
      Handler.mkResponse Handler.StatusInternalServerError
        (Handler.ErrorResponse "invalid key"))).
Proof.
  intros Hs Habs. unfold Handler.DeleteObject, ReplicatedStore.Delete.
  rewrite Hs. split.
  - intros Hk. by rewrite (Get_absent _ _ _ Hk Habs).
  - intros Hk. rewrite Hk. reflexivity.
Qed.

Lemma Put_ok_local sch now store collection key (value : V) n store' n' :
  ReplicatedStore.Put sch now store collection key value n = (store', n', None) →
  LevelDBStore.Put (ReplicatedStore.store store) collection key value
    = (ReplicatedStore.store store', None).
Proof.
  unfold ReplicatedStore.Put.
  destruct (Config.IsSlave _); [done|].
  destruct (json_Marshal value) as [data|e] eqn:Hj; [|done].
  destruct (match ReplicatedStore.replicates store with
            | Some m => _ | None => _ end) as [[mgr n1] [err|]]; [done|].
  destruct (LevelDBStore.Put _ _ _ _) as [st [err|]]; [done|].
  by intros [= <- _].
Qed.

(** X21. After a PutObject that was answered 200, a GetObject on the
    resulting store for the key and collection of that request is answered
    200 with what the stored text parses to (500 if it does not parse),
    whether or not the write went through replication. *)
Theorem X21_get_after_put_object sch now store c n :
  let '(store', n', resp) := Handler.PutObject sch now store c n in
  Handler.Status resp = Handler.StatusOK →
  ∃ req data,
    Handler.body c = Ok req ∧ json_Marshal (Handler.Value req) = Ok data ∧
    ∀ b,
      Handler.GetObject store'
        (Handler.mkCtx b (Handler.Key req) (Handler.collection c)) =
      match json_Unmarshal data with
      | Ok v =>
          Handler.mkResponse Handler.StatusOK
            (Handler.GetResponse (Handler.Key req) v)
      | Err e =>
          Handler.mkResponse Handler.StatusInternalServerError
            (Handler.ErrorResponse ("failed to deserialize value: " +:+ Error e))
      end.
Proof.
  unfold Handler.PutObject, Handler.StatusBadRequest, Handler.StatusOK,
    Handler.StatusInternalServerError.
  destruct (Handler.body c) as [req|e] eqn:Hb; [|done].
  case_bool_decide as Hk; [done|].
  destruct (ReplicatedStore.Put _ _ _ _ _ _ _) as [[store' n'] [err|]] eqn:Hp;
    [done|].
  intros _. apply Put_ok_local in Hp.
  unfold LevelDBStore.Put in Hp. rewrite bool_decide_false in Hp by done.
  destruct (json_Marshal (Handler.Value req)) as [data|e] eqn:Hj; [|done].
  destruct (db_Put _ _ _) as [d [e|]] eqn:Hput; [done|].
  injection Hp as Hst. exists req, data. split; [done|]. split; [done|].
  intros b. unfold Handler.GetObject, ReplicatedStore.Get.
  cbn [Handler.collection Handler.param_key].
  rewrite (Get_stored _ _ _ data Hk).
  - by destruct (json_Unmarshal data).
  - rewrite <- Hst. cbn.
    rewrite (engine_get_put _ _ _ _ _ Hput). by rewrite decide_True.
Qed.

End Handlers.

Lemma X19_witness :
  let c := Handler.mkCtx (Ok (Handler.mkPutRequest "a" Ex.two)) "a" "default" in
  Handler.PutObject in_order 7 Ex.rs_replica c (Ex.net Ex.healthy) =
    (Ex.rs_replica, Ex.net Ex.healthy,
     Handler.mkResponse 500
       (Handler.ErrorResponse
          "writes not allowed on slave nodes, send request to master")) ∧
  Handler.DeleteObject in_order 7 Ex.rs_replica c (Ex.net Ex.healthy) =
    (Ex.rs_replica, Ex.net Ex.healthy,
     Handler.mkResponse 500
       (Handler.ErrorResponse
          "deletes not allowed on slave nodes, send request to master")).
Proof.
  refine (X19_replica_answers_500 in_order 7 Ex.rs_replica
            (Handler.mkCtx (Ok (Handler.mkPutRequest "a" Ex.two)) "a" "default")
            (Ex.net Ex.healthy) (Handler.mkPutRequest "a" Ex.two)
            eq_refl eq_refl _).
  intros H. discriminate H.
Defined.

Lemma X20_witness :
  Handler.DeleteObject (V:=bytes) in_order 7 Ex.rs_master
    (Handler.mkCtx (Err ErrInvalidKey) "b" "default") (Ex.net Ex.healthy) =
    (Ex.rs_master, Ex.net Ex.healthy,
     Handler.mkResponse 404 (Handler.ErrorResponse "Key not found")) ∧
  Handler.DeleteObject (V:=bytes) in_order 7 Ex.rs_master
    (Handler.mkCtx (Err ErrInvalidKey) "" "default") (Ex.net Ex.healthy) =
    (Ex.rs_master, Ex.net Ex.healthy,
     Handler.mkResponse 500 (Handler.ErrorResponse "invalid key")).
Proof.
  split.
  - refine (proj1 (X20_delete_object_absent (V:=bytes) in_order 7 Ex.rs_master
                     (Handler.mkCtx (Err ErrInvalidKey) "b" "default")
                     (Ex.net Ex.healthy) eq_refl eq_refl) _).
    intros H. discriminate H.
  - exact (proj2 (X20_delete_object_absent (V:=bytes) in_order 7 Ex.rs_master
                    (Handler.mkCtx (Err ErrInvalidKey) "" "default")
                    (Ex.net Ex.healthy) eq_refl eq_refl) eq_refl).
Defined.

Lemma X21_witness :
  ∃ req data,
    Ok (Handler.mkPutRequest "a" Ex.one) = Ok req ∧
    json_Marshal (Handler.Value req) = Ok data ∧
    ∀ b,
      Handler.GetObject
        (fst (fst (Handler.PutObject in_order 7 Ex.rs_master
                     (Handler.mkCtx (Ok (Handler.mkPutRequest "a" Ex.one))
                        "" "default") (Ex.net Ex.healthy))))
        (Handler.mkCtx b (Handler.Key req) "default") =
      match json_Unmarshal data with
      | Ok v => Handler.mkResponse 200 (Handler.GetResponse (Handler.Key req) v)
      | Err e =>
          Handler.mkResponse 500
            (Handler.ErrorResponse ("failed to deserialize value: " +:+ Error e))
      end.
Proof.
  pose proof (X21_get_after_put_object in_order 7 Ex.rs_master
                (Handler.mkCtx (Ok (Handler.mkPutRequest "a" Ex.one)) "" "default")
                (Ex.net Ex.healthy)) as H.
  assert (Hs : Handler.Status
                 (snd (Handler.PutObject in_order 7 Ex.rs_master
                         (Handler.mkCtx (Ok (Handler.mkPutRequest "a" Ex.one))
                            "" "default") (Ex.net Ex.healthy)))
               = Handler.StatusOK) by (vm_compute; reflexivity).
  revert H Hs.
  generalize (Handler.PutObject in_order 7 Ex.rs_master
                (Handler.mkCtx (Ok (Handler.mkPutRequest "a" Ex.one)) "" "default")
                (Ex.net Ex.healthy)).
  intros [[store' n'] resp] H Hs. exact (H Hs).
Defined.

(** ** Transaction ids *)

Lemma pretty_N_go_no_dash (x : N) (s : string) :
  "-"%char ∉ String.list_ascii_of_string s →
  "-"%char ∉ String.list_ascii_of_string (pretty_N_go x s).
Proof.
  revert s. induction (N.lt_wf_0 x) as [x _ IH]; intros s Hs.
  assert (x = 0 ∨ 0 < x)%N as [->|Hx] by lia.
  - by rewrite pretty_N_go_0.
  - rewrite pretty_N_go_step by done. apply IH.
    { by apply N.div_lt. }
    cbn [String.list_ascii_of_string]. apply not_elem_of_cons. split; [|done].
    unfold pretty_N_char. by repeat case_match.
Qed.

Lemma pretty_nonneg_no_dash (i : Z) :
  0 ≤ i → "-"%char ∉ String.list_ascii_of_string (pretty i).
Proof.
  intros Hi. destruct i as [|p|p]; [| |lia].
  - cbn. apply not_elem_of_cons. split; [done|]. apply not_elem_of_nil.
  - unfold pretty, pretty_Z, pretty, pretty_positive, pretty, pretty_N.
    case_decide; [done|]. apply pretty_N_go_no_dash. apply not_elem_of_nil.
Qed.

Lemma dash_in_append (a d : string) :
  "-"%char ∈ String.list_ascii_of_string (a +:+ "-" +:+ d).
Proof.
  induction a as [|x a IH].
  - rewrite append_nil_l, append_cons. cbn [String.list_ascii_of_string].
    apply elem_of_cons. by left.
  - rewrite append_cons. cbn [String.list_ascii_of_string].
    apply elem_of_cons. by right.
Qed.

(** The text after the last dash is determined by the whole. *)
Lemma last_dash_split (a1 a2 d1 d2 : string) :
  "-"%char ∉ String.list_ascii_of_string d1 →
  "-"%char ∉ String.list_ascii_of_string d2 →
  a1 +:+ "-" +:+ d1 = a2 +:+ "-" +:+ d2 →
  d1 = d2.
Proof.
  intros H1 H2. revert a2.
  induction a1 as [|x a1 IH]; intros [|y a2] Heq.
  - change (String "-" d1 = String "-" d2) in Heq. by injection Heq.
  - change (String "-" d1 = String y (a2 +:+ "-" +:+ d2)) in Heq.
    injection Heq as _ ->. destruct H1. apply dash_in_append.
  - change (String x (a1 +:+ "-" +:+ d1) = String "-" d2) in Heq.
    injection Heq as _ <-. destruct H2. apply dash_in_append.
  - change (String x (a1 +:+ "-" +:+ d1) = String y (a2 +:+ "-" +:+ d2)) in Heq.
    injection Heq as _ Heq. by apply IH in Heq.
Qed.

(** X22. Two transaction ids generated at different values of the id
    counter are different strings, whatever the clock read at either
    time, the same instant included. *)
Theorem X22_txn_ids_distinct (m1 m2 : Manager.t) (now1 now2 : Z) :
  (Manager.txnID m1 + 1) mod 2 ^ 64 ≠ (Manager.txnID m2 + 1) mod 2 ^ 64 →
  snd (Manager.generateTxnID m1 now1) ≠ snd (Manager.generateTxnID m2 now2).
Proof.
  intros Hne Heq. apply Hne. unfold Manager.generateTxnID in Heq. cbn [snd] in Heq.
  rewrite <- (append_assoc_colon "txn-" (pretty now1)),
    <- (append_assoc_colon "txn-" (pretty now2)) in Heq.
  apply last_dash_split in Heq.
  - by apply (inj pretty) in Heq.
  - apply pretty_nonneg_no_dash. apply Z.mod_pos_bound. lia.
  - apply pretty_nonneg_no_dash. apply Z.mod_pos_bound. lia.
Qed.

Lemma X22_witness :
  snd (Manager.generateTxnID (Manager.mk [Ex.r1] 0 0) 7)
    ≠ snd (Manager.generateTxnID (Manager.mk [Ex.r1] 0 10) 71).
Proof.
  apply X22_txn_ids_distinct. vm_compute. discriminate.
Defined.

(** ** Start-up of the coordinator *)

(** X23. The coordinator built at start-up has one client for each
    configured address that is non-empty and could be dialled, in the
    order of the configuration, and none for any other address; both its
    counters start at zero. *)
Theorem X23_new_manager (dial : string → option error) (addrs : list string) :
  let m := Manager.NewManager dial addrs in
  Client.addr <$> Manager.clients m
    = filter (λ a, a ≠ "" ∧ dial a = None) addrs ∧
  (∀ a, a ∈ Client.addr <$> Manager.clients m ↔
        a ∈ addrs ∧ a ≠ "" ∧ dial a = None) ∧
  Manager.seq m = 0 ∧ Manager.txnID m = 0.
Proof.
  cbv zeta. rewrite NewManager_clients. cbn [Manager.clients Manager.seq Manager.txnID].
  assert (Client.addr <$> (Client.mk <$> filter (λ a, a ≠ "" ∧ dial a = None) addrs)
          = filter (λ a, a ≠ "" ∧ dial a = None) addrs) as ->.
  { rewrite <- list_fmap_compose. apply list_fmap_id. }
  split_and!; try done.
  intros a. rewrite list_elem_of_filter. tauto.
Qed.

Section ReplicatedDelete.
Context {DB V W : Type} `{!Engine DB} `{!Iterable DB} `{!Json V} `{!Transport W}
  `{!LawfulEngine DB}.

Lemma Delete_ok_local sch now (store store' : ReplicatedStore.t DB)
    collection key (n n' : Net W) :
  ReplicatedStore.Delete (V:=V) sch now store collection key n = (store', n', None) →
  Config.IsSlave (ReplicatedStore.config store') = false ∧
  LevelDBStore.Delete (ReplicatedStore.store store) collection key
    = (ReplicatedStore.store store', None).
Proof.
  unfold ReplicatedStore.Delete.
  destruct (Config.IsSlave (ReplicatedStore.config store)) eqn:Hs; [done|].
  destruct (LevelDBStore.Get _ _ _) as [v|e]; [|done].
  destruct (match ReplicatedStore.replicates store with
            | Some m => _ | None => _ end) as [[mgr n1] [err|]]; [done|].
  destruct (LevelDBStore.Delete _ _ _) as [st [err|]]; [done|].
  by intros [= <- _].
Qed.

Lemma Delete_gone (s s' : LevelDBStore.t DB) collection key :
  LevelDBStore.Delete s collection key = (s', None) →
  key ≠ "" ∧
  db_Get (LevelDBStore.db s') (LevelDBStore.makeKey collection key)
    = Err leveldb_ErrNotFound.
Proof.
  unfold LevelDBStore.Delete. case_bool_decide as Hk; [done|].
  destruct (db_Get _ _) as [data|e]; [|by case_bool_decide].
  destruct (db_Delete _ _) as [d [e|]] eqn:Hdel; [done|].
  intros [= <-]. split; [done|]. cbn.
  rewrite (engine_get_delete _ _ _ _ Hdel). by rewrite decide_True.
Qed.

(** X4. After a Delete on the replicated store that returned no error, Get
    of that collection and key on the resulting store answers
    ErrKeyNotFound, and a further Delete answers ErrKeyNotFound at once:
    it sends nothing and changes nothing. *)
Theorem X4_replicated_delete_then_get sch now (store store' : ReplicatedStore.t DB)
    collection key (n n' : Net W) :
  ReplicatedStore.Delete (V:=V) sch now store collection key n = (store', n', None) →
  key ≠ "" ∧
  ReplicatedStore.Get (V:=V) store' collection key = Err ErrKeyNotFound ∧
  ∀ sch' now' (n'' : Net W),
    ReplicatedStore.Delete (V:=V) sch' now' store' collection key n''
      = (store', n'', Some ErrKeyNotFound).
Proof.
  intros Hd. apply Delete_ok_local in Hd as [Hs Hl].
  apply Delete_gone in Hl as [Hk Hg].
  pose proof (Get_absent (V:=V) _ _ _ Hk Hg) as Hget.
  split_and!; [done|exact Hget|].
  intros sch' now' n''. unfold ReplicatedStore.Delete. by rewrite Hs, Hget.
Qed.

End ReplicatedDelete.

Lemma X4_witness :
  let store' :=
    fst (fst (ReplicatedStore.Delete (V:=bytes) in_order 7 Ex.rs_master_a
                "default" "a" (Ex.net Ex.healthy))) in
  "a" ≠ "" ∧
  ReplicatedStore.Get (V:=bytes) store' "default" "a" = Err ErrKeyNotFound ∧
  ∀ sch' now' (n'' : Net (gmap string Peer)),
    ReplicatedStore.Delete (V:=bytes) sch' now' store' "default" "a" n''
      = (store', n'', Some ErrKeyNotFound).
Proof.
  apply (X4_replicated_delete_then_get (V:=bytes) in_order 7 Ex.rs_master_a _
           "default" "a" (Ex.net Ex.healthy)
           (snd (fst (ReplicatedStore.Delete (V:=bytes) in_order 7 Ex.rs_master_a
                        "default" "a" (Ex.net Ex.healthy))))).
  vm_compute. reflexivity.
Defined.
